(** * String Analyser: the analysis functions and the HTTP handlers

    A shallow embedding of [hng/utils.py] and [hng/routes/route.py], and of
    the log formatter of [hng/logger.py].

    - A Python [str] is a list of Unicode code points ([list Z]).
    - Python's case and alphanumeric tables are an interface ([Unicode]);
      the whitespace table, UTF-8 and SHA-256 are written out.
    - A handler is a computation over the database session: it returns a
      value or raises, and threads the table and the log of the statements
      it executed. *)

From Stdlib Require Import ZArith String Ascii Floats.
From stdpp Require Import gmap list strings.

Open Scope Z_scope.

(** ** Python strings *)

Abbreviation pystr := (list Z).

(** An ASCII literal as a Python string. *)
Definition py (s : string) : pystr :=
  (λ a, Z.of_nat (nat_of_ascii a)) <$> list_ascii_of_string s.

(** [len(s)] *)
Definition len {A} (s : list A) : Z := Z.of_nat (length s).

(** [str.isspace] on one code point: the complete CPython table. *)
Definition isspace (c : Z) : bool :=
  ((0x09 <=? c) && (c <=? 0x0d)) || ((0x1c <=? c) && (c <=? 0x20))
  || (c =? 0x85) || (c =? 0xa0) || (c =? 0x1680)
  || ((0x2000 <=? c) && (c <=? 0x200a))
  || (c =? 0x2028) || (c =? 0x2029) || (c =? 0x202f) || (c =? 0x205f)
  || (c =? 0x3000).

Fixpoint lstrip (s : pystr) : pystr :=
  match s with
  | c :: s' => if isspace c then lstrip s' else s
  | [] => []
  end.

Definition rstrip (s : pystr) : pystr := reverse (lstrip (reverse s)).

(** [s.strip()] *)
Definition strip (s : pystr) : pystr := rstrip (lstrip s).

(** Truth value of a string: non-empty. *)
Definition str_truthy (s : pystr) : bool :=
  match s with [] => false | _ => true end.

(** The part of Python's Unicode database the code relies on and that is too
    large to list: [str.lower] and [str.isalnum] (which decides the [\w] of
    [re]).  Lowercasing an already lowercased string changes nothing. *)
Class Unicode := {
  lower : pystr → pystr;
  isalnum : Z → bool;
  lower_idemp : ∀ s, lower (lower s) = lower s
}.

(** ** UTF-8 and SHA-256 ([str.encode], [hashlib.sha256]) *)

Module UTF8.

(** One code point; [None] is [UnicodeEncodeError] (a surrogate). *)
Definition encode_cp (c : Z) : option (list Z) :=
  if (c <? 0) then None
  else if c <? 0x80 then Some [c]
  else if c <? 0x800 then
    Some [Z.lor 0xc0 (Z.shiftr c 6); Z.lor 0x80 (Z.land c 0x3f)]
  else if c <? 0x10000 then
    if (0xd800 <=? c) && (c <=? 0xdfff) then None
    else Some [Z.lor 0xe0 (Z.shiftr c 12);
               Z.lor 0x80 (Z.land (Z.shiftr c 6) 0x3f);
               Z.lor 0x80 (Z.land c 0x3f)]
  else if c <? 0x110000 then
    Some [Z.lor 0xf0 (Z.shiftr c 18);
          Z.lor 0x80 (Z.land (Z.shiftr c 12) 0x3f);
          Z.lor 0x80 (Z.land (Z.shiftr c 6) 0x3f);
          Z.lor 0x80 (Z.land c 0x3f)]
  else None.

Fixpoint encode (s : pystr) : option (list Z) :=
  match s with
  | [] => Some []
  | c :: s' =>
      match encode_cp c, encode s' with
      | Some b, Some bs => Some (b ++ bs)
      | _, _ => None
      end
  end.

End UTF8.

Module SHA256.

Definition wrap (x : Z) : Z := x mod 2 ^ 32.
Definition add (x y : Z) : Z := wrap (x + y).
Definition rotr (n x : Z) : Z :=
  Z.lor (Z.shiftr x n) (wrap (Z.shiftl x (32 - n))).
Definition lnot (x : Z) : Z := Z.lxor x 0xffffffff.

Definition Ch (x y z : Z) : Z := Z.lxor (Z.land x y) (Z.land (lnot x) z).
Definition Maj (x y z : Z) : Z :=
  Z.lxor (Z.lxor (Z.land x y) (Z.land x z)) (Z.land y z).
Definition Sigma0 (x : Z) : Z :=
  Z.lxor (Z.lxor (rotr 2 x) (rotr 13 x)) (rotr 22 x).
Definition Sigma1 (x : Z) : Z :=
  Z.lxor (Z.lxor (rotr 6 x) (rotr 11 x)) (rotr 25 x).
Definition sigma0 (x : Z) : Z :=
  Z.lxor (Z.lxor (rotr 7 x) (rotr 18 x)) (Z.shiftr x 3).
Definition sigma1 (x : Z) : Z :=
  Z.lxor (Z.lxor (rotr 17 x) (rotr 19 x)) (Z.shiftr x 10).

(** The first 64 primes: the numbers from 2 to 311 with no proper divisor. *)
Definition is_prime (n : Z) : bool :=
  forallb (λ d, negb (n mod d =? 0)) (seqZ 2 (n - 2)).

Definition primes : list Z := List.filter is_prime (seqZ 2 310).

(** The integer part of the cube root, one bit at a time from bit [k - 1]
    down. *)
Fixpoint cube_root (k : nat) (n acc : Z) : Z :=
  match k with
  | O => acc
  | S k' =>
      let c := acc + 2 ^ Z.of_nat k' in
      cube_root k' n (if c * c * c <=? n then c else acc)
  end.

(** The round constants: the first 32 bits of the fractional parts of the
    cube roots of the primes. *)
Definition K : list Z :=
  Eval vm_compute in (λ p, wrap (cube_root 40 (p * 2 ^ 96) 0)) <$> primes.

(** The initial hash value: the first 32 bits of the fractional parts of the
    square roots of the first eight primes. *)
Definition H0 : list Z :=
  Eval vm_compute in (λ p, wrap (Z.sqrt (p * 2 ^ 64))) <$> take 8 primes.

(** [n] as [k] big-endian bytes. *)
Fixpoint be_bytes (k : nat) (n : Z) : list Z :=
  match k with
  | O => []
  | S k' => Z.land (Z.shiftr n (8 * Z.of_nat k')) 0xff :: be_bytes k' n
  end.

(** Big-endian bytes as 32-bit words. *)
Fixpoint be_words (bs : list Z) : list Z :=
  match bs with
  | b0 :: b1 :: b2 :: b3 :: bs' =>
      (((b0 * 256 + b1) * 256 + b2) * 256 + b3) :: be_words bs'
  | _ => []
  end.

(** The message, a 1 bit, zeros up to 56 modulo 64, the bit length. *)
Definition pad (msg : list Z) : list Z :=
  let n := len msg in
  msg ++ [0x80] ++ replicate (Z.to_nat ((55 - n) mod 64)) 0
      ++ be_bytes 8 (8 * n).

Fixpoint blocks (fuel : nat) (ws : list Z) : list (list Z) :=
  match fuel, ws with
  | S fuel', _ :: _ => take 16 ws :: blocks fuel' (drop 16 ws)
  | _, _ => []
  end.

(** The message schedule, latest word first. *)
Fixpoint schedule (k : nat) (rev_w : list Z) : list Z :=
  match k with
  | O => rev_w
  | S k' =>
      let w i := default 0 (rev_w !! i) in
      schedule k'
        (add (add (sigma1 (w 1%nat)) (w 6%nat))
             (add (sigma0 (w 14%nat)) (w 15%nat)) :: rev_w)
  end.

Definition round (st : list Z) (kw : Z * Z) : list Z :=
  match st with
  | [a; b; c; d; e; f; g; h] =>
      let t1 := add (add (add h (Sigma1 e)) (add (Ch e f g) kw.1)) kw.2 in
      let t2 := add (Sigma0 a) (Maj a b c) in
      [add t1 t2; a; b; c; add d t1; e; f; g]
  | _ => st
  end.

Definition compress (h : list Z) (block : list Z) : list Z :=
  let w := reverse (schedule 48 (reverse block)) in
  zip_with add h (foldl round h (zip K w)).

Definition digest (msg : list Z) : list Z :=
  let ws := be_words (pad msg) in
  mjoin (be_bytes 4 <$> foldl compress H0 (blocks (length ws) ws)).

Definition hex_digit (n : Z) : Z :=
  if n <? 10 then 0x30 + n else 0x61 + (n - 10).

(** [hexdigest()]: two lowercase hexadecimal digits per byte. *)
Definition hexdigest (msg : list Z) : pystr :=
  mjoin ((λ b, [hex_digit (Z.shiftr b 4); hex_digit (Z.land b 0xf)])
           <$> digest msg).

End SHA256.

(** ** hng/utils.py *)

(** Raised exceptions.  [HTTPException] carries the status code and the
    detail; the others reach the framework uncaught. *)
Inductive exn :=
  | HTTPException (status_code : Z) (detail : pystr)
  | UnicodeEncodeError
  | TypeError
  | IntegrityError
  | InvalidRequestError.

Inductive outcome (A : Type) :=
  | Return (a : A)
  | Raise (e : exn).
Arguments Return {A} a.
Arguments Raise {A} e.

(** The six computed properties: the dict built by [create_properties] and
    the fields of [PropertiesModel]. *)
Module PropertiesModel.
Record t := {
  length : Z;
  is_palindrome : bool;
  unique_characters : Z;
  word_count : Z;
  sha256_hash : pystr;
  character_frequency_map : gmap Z Z
}.
End PropertiesModel.

Section Utils.
Context `{Unicode}.

(** A character of [\w]. *)
Definition isword (c : Z) : bool := isalnum c || (c =? 0x5f).

(** [re.findall(r"\b\w+\b", s)]: the maximal runs of word characters, left
    to right; [run] is the run being read, latest character first. *)
Fixpoint findall_words (run : pystr) (s : pystr) : list pystr :=
  match s with
  | [] => match run with [] => [] | _ => [reverse run] end
  | c :: s' =>
      if isword c then findall_words (c :: run) s'
      else match run with
           | [] => findall_words [] s'
           | _ => reverse run :: findall_words [] s'
           end
  end.

Definition get_word_count (sentence : pystr) : Z :=
  let words := findall_words [] (lower sentence) in
  len words.

Definition get_is_palindrome (sentence : pystr) : bool :=
  let normalized := lower sentence in
  bool_decide (normalized = reverse normalized).

Definition get_unique_characters (sentence : pystr) : Z :=
  Z.of_nat (size (list_to_set (lower sentence) : gset Z)).

(** One iteration of the loop of [get_character_frequency_map]. *)
Definition count_char (freq : gmap Z Z) (char : Z) : gmap Z Z :=
  if str_truthy (strip [char])
  then <[char := default 0 (freq !! char) + 1]> freq
  else freq.

Definition get_character_frequency_map (sentence : pystr) : gmap Z Z :=
  foldl count_char ∅ (lower sentence).

Definition get_sha256 (sentence : pystr) : outcome pystr :=
  match UTF8.encode (lower sentence) with
  | Some bytes => Return (SHA256.hexdigest bytes)
  | None => Raise UnicodeEncodeError
  end.

(** The dict of the six properties.  Only [get_sha256] can raise, so the
    order in which the entries are evaluated does not show. *)
Definition create_properties (sentence : pystr) : outcome PropertiesModel.t :=
  match get_sha256 sentence with
  | Return hash =>
      Return {| PropertiesModel.length := len sentence;
                PropertiesModel.is_palindrome := get_is_palindrome sentence;
                PropertiesModel.unique_characters :=
                  get_unique_characters sentence;
                PropertiesModel.word_count := get_word_count sentence;
                PropertiesModel.sha256_hash := hash;
                PropertiesModel.character_frequency_map :=
                  get_character_frequency_map sentence |}
  | Raise e => Raise e
  end.

End Utils.

(** The Basic Latin and Latin-1 rows of the two tables, and the one code
    point whose lowercase form is two code points long (U+0130). *)
Module Latin1.

Definition lower_cp (c : Z) : pystr :=
  if (0x41 <=? c) && (c <=? 0x5a) then [c + 32]
  else if (0xc0 <=? c) && (c <=? 0xde) && negb (c =? 0xd7) then [c + 32]
  else if c =? 0x130 then [0x69; 0x307]
  else [c].

Definition lower (s : pystr) : pystr := s ≫= lower_cp.

Definition isalnum (c : Z) : bool :=
  ((0x30 <=? c) && (c <=? 0x39)) || ((0x41 <=? c) && (c <=? 0x5a))
  || ((0x61 <=? c) && (c <=? 0x7a))
  || (c =? 0xaa) || (c =? 0xb2) || (c =? 0xb3) || (c =? 0xb5)
  || (c =? 0xb9) || (c =? 0xba) || ((0xbc <=? c) && (c <=? 0xbe))
  || ((0xc0 <=? c) && (c <=? 0xd6)) || ((0xd8 <=? c) && (c <=? 0xf6))
  || ((0xf8 <=? c) && (c <=? 0xff)).

End Latin1.

(** ** The request body and the database

    [GetRequest.value] is declared [Any]: whatever JSON value the body
    carries. *)

#[local] Set Warnings "-register-all".
Inductive json :=
  | JNull
  | JBool (b : bool)
  | JInt (n : Z)
  | JFloat (x : float)
  | JStr (s : pystr)
  | JList (items : list json)
  | JDict (items : list (pystr * json)).

(** Truth value of a decoded JSON value ([not v] is its negation). *)
Definition truthy (v : json) : bool :=
  match v with
  | JNull => false
  | JBool b => b
  | JInt n => negb (n =? 0)
  | JFloat x => negb (PrimFloat.eqb x 0%float)
  | JStr s => str_truthy s
  | JList items => match items with [] => false | _ => true end
  | JDict items => match items with [] => false | _ => true end
  end.

Module GetRequest.
Record t := { value : json }.
End GetRequest.

(** A row of the table [analyser] (hng/model/analyser.py). *)
Module Analyser.
Record t := {
  id : pystr;
  sha256_hash : pystr;
  value : pystr;
  length : Z;
  word_count : Z;
  is_palindrome : bool;
  unique_characters : Z;
  character_frequency_map : gmap Z Z;
  created_at : Z
}.
End Analyser.

Module StringResponse.
Record t := {
  id : pystr;
  value : pystr;
  properties : PropertiesModel.t;
  created_at : Z
}.
End StringResponse.

Module ListResponse.
Record t := {
  data : list StringResponse.t;
  count : Z;
  filters_applied : list (string * json)
}.
End ListResponse.

(** The column expressions the handlers build. *)
Inductive condition :=
  | IdEq (pk : pystr)
  | ValueEq (v : pystr)
  | IsPalindromeEq (b : bool)
  | LengthGe (n : Z)
  | LengthLe (n : Z)
  | WordCountEq (n : Z)
  | HasKey (key : pystr).

(** JSONB [?]: the string is a top-level key.  The keys of a stored frequency
    map are the one-character strings. *)
Definition has_key (m : gmap Z Z) (key : pystr) : bool :=
  match key with
  | [c] => bool_decide (is_Some (m !! c))
  | _ => false
  end.

Definition holds (r : Analyser.t) (c : condition) : bool :=
  match c with
  | IdEq pk => bool_decide (Analyser.id r = pk)
  | ValueEq v => bool_decide (Analyser.value r = v)
  | IsPalindromeEq b => bool_decide (Analyser.is_palindrome r = b)
  | LengthGe n => n <=? Analyser.length r
  | LengthLe n => Analyser.length r <=? n
  | WordCountEq n => Analyser.word_count r =? n
  | HasKey key => has_key (Analyser.character_frequency_map r) key
  end.

(** What a handler sent to the database. *)
Inductive statement :=
  | Select (where_ : list condition)
  | Insert (row : Analyser.t).

(** The session: the committed rows, oldest first, and the statements
    executed so far. *)
Record session := {
  table : list Analyser.t;
  executed : list statement
}.

(** A handler body: returns or raises, and threads the session. *)
Definition io (A : Type) : Type := session → outcome A * session.

#[export] Instance io_ret : MRet io := λ A a s, (Return a, s).

#[export] Instance io_bind : MBind io := λ A B f m s,
  match m s with
  | (Return a, s') => f a s'
  | (Raise e, s') => (Raise e, s')
  end.

Definition raise {A} (e : exn) : io A := λ s, (Raise e, s).

Definition lift {A} (o : outcome A) : io A := λ s, (o, s).

(** The rows that satisfy the conjunction of the conditions, in table
    order. *)
Definition rows_where (conds : list condition) (t : list Analyser.t)
    : list Analyser.t :=
  List.filter (λ r, forallb (holds r) conds) t.

(** [session.execute(select(Analyser).where(and_( *conds)))], all rows. *)
Definition select_where (conds : list condition) : io (list Analyser.t) :=
  λ s,
    (Return (rows_where conds (table s)),
     {| table := table s; executed := executed s ++ [Select conds] |}).

(** [session.get(Analyser, pk)] *)
Definition session_get (pk : pystr) : io (option Analyser.t) :=
  rows ← select_where [IdEq pk]; mret (head rows).

(** [session.add(row); session.commit()].  The table has a primary key on
    [id] and the constraint [uq_analyser_value] on [value]. *)
Definition add_commit (row : Analyser.t) : io unit :=
  λ s,
    let s' := {| table := table s; executed := executed s ++ [Insert row] |} in
    if existsb (λ r, bool_decide (Analyser.id r = Analyser.id row)
                     || bool_decide (Analyser.value r = Analyser.value row))
               (table s)
    then (Raise IntegrityError, s')
    else (Return (),
          {| table := table s ++ [row];
             executed := executed s ++ [Insert row] |}).

(** [session.refresh(row)]: the row as stored. *)
Definition refresh (row : Analyser.t) : io Analyser.t :=
  found ← session_get (Analyser.id row);
  match found with
  | Some r => mret r
  | None => raise InvalidRequestError
  end.

(** ** hng/routes/route.py *)

Definition DOES_NOT_EXIST : pystr := py "value does not exist".
Definition DUPLICATE_VALUE : pystr := py "String already exists in the system".
Definition NOT_STRING : pystr :=
  [0x22] ++ py "value" ++ [0x22] ++ py " must be a string".
Definition EMPTY_STRING : pystr :=
  [0x22] ++ py "value" ++ [0x22] ++ py " field is required".

(** What the remote NLP service did with the one GET sent to it. *)
Inductive nlp_reply :=
  | RequestError (exc : pystr)
      (* [client.get] raised [httpx.RequestError] *)
  | HTTPStatusError (text : pystr)
      (* [raise_for_status] raised; [text] is the body of the response *)
  | Response (body : option json).
      (* a success status; [None] when the body is not JSON *)

(** [await v] for a decoded JSON value [v]: none of dict, list, str, int,
    float, bool and None is awaitable. *)
Definition await_json {A} (v : json) : io A := raise TypeError.

(** [PropertiesModel( **r.__dict__)] *)
Definition properties_of (r : Analyser.t) : PropertiesModel.t :=
  {| PropertiesModel.length := Analyser.length r;
     PropertiesModel.is_palindrome := Analyser.is_palindrome r;
     PropertiesModel.unique_characters := Analyser.unique_characters r;
     PropertiesModel.word_count := Analyser.word_count r;
     PropertiesModel.sha256_hash := Analyser.sha256_hash r;
     PropertiesModel.character_frequency_map :=
       Analyser.character_frequency_map r |}.

Definition string_response (r : Analyser.t) : StringResponse.t :=
  {| StringResponse.id := Analyser.id r;
     StringResponse.value := Analyser.value r;
     StringResponse.properties := properties_of r;
     StringResponse.created_at := Analyser.created_at r |}.

(** The query parameters of [GET /strings/]. *)
Record filters := {
  q_is_palindrome : option bool;
  q_min_length : option Z;
  q_max_length : option Z;
  q_word_count : option Z;
  q_contains_character : option pystr
}.

(** [Analyser(id=prop.get("sha256_hash"), ..., created_at=now)] *)
Definition new_row (prop : PropertiesModel.t) (value : pystr) (now : Z)
    : Analyser.t :=
  {| Analyser.id := PropertiesModel.sha256_hash prop;
     Analyser.sha256_hash := PropertiesModel.sha256_hash prop;
     Analyser.value := value;
     Analyser.length := PropertiesModel.length prop;
     Analyser.word_count := PropertiesModel.word_count prop;
     Analyser.is_palindrome := PropertiesModel.is_palindrome prop;
     Analyser.unique_characters := PropertiesModel.unique_characters prop;
     Analyser.character_frequency_map :=
       PropertiesModel.character_frequency_map prop;
     Analyser.created_at := now |}.

(** The status line of the response: the decorator's status when the handler
    returns, the status of an [HTTPException], 500 for any other exception. *)
Definition status_code {A} (success : Z) (o : outcome A) : Z :=
  match o with
  | Return _ => success
  | Raise (HTTPException code _) => code
  | Raise _ => 500
  end.

(** The value a handler returned, if it returned. *)
Definition returned {A} (o : outcome A) : option A :=
  match o with
  | Return a => Some a
  | Raise _ => None
  end.

Section Routes.
Context `{Unicode}.

(** [now] is the value of [datetime.now(UTC)]. *)
Definition create_string (req : GetRequest.t) (now : Z) : io StringResponse.t :=
  if negb (truthy (GetRequest.value req)) then
    raise (HTTPException 400 EMPTY_STRING)
  else
    match GetRequest.value req with
    | JStr req_value =>
        let value := strip req_value in
        prop ← lift (create_properties (lower value));
        existing ← session_get (PropertiesModel.sha256_hash prop);
        if existing is Some _ then raise (HTTPException 409 DUPLICATE_VALUE)
        else
          data ← select_where [ValueEq req_value];
          if head data is Some _ then
            raise (HTTPException 409 DUPLICATE_VALUE)
          else
            let db := new_row prop value now in
            _ ← add_commit db;
            db ← refresh db;
            mret {| StringResponse.id := Analyser.id db;
                    StringResponse.value := Analyser.value db;
                    StringResponse.properties := prop;
                    StringResponse.created_at := Analyser.created_at db |}
    | _ => raise (HTTPException 422 NOT_STRING)
    end.

Definition get_string (string_value : pystr) : io StringResponse.t :=
  let value := strip string_value in
  id ← lift (get_sha256 (lower value));
  data ← select_where [IdEq id];
  match head data with
  | None => raise (HTTPException 404 DOES_NOT_EXIST)
  | Some result => mret (string_response result)
  end.

(** [max_length and min_length and max_length < min_length] *)
Definition bounds_rejected (q : filters) : bool :=
  match q_max_length q, q_min_length q with
  | Some max_length, Some min_length =>
      negb (max_length =? 0) && negb (min_length =? 0)
      && (max_length <? min_length)
  | _, _ => false
  end.

(** The lists [condition] and [params] after the five [if]s. *)
Definition conditions (q : filters) : list condition :=
  (if q_is_palindrome q is Some b then [IsPalindromeEq b] else [])
  ++ (if q_min_length q is Some n then [LengthGe n] else [])
  ++ (if q_max_length q is Some n then [LengthLe n] else [])
  ++ (if q_word_count q is Some n then [WordCountEq n] else [])
  ++ (match q_contains_character q with
      | Some c => if str_truthy c then [HasKey (lower (strip c))] else []
      | None => []
      end).

Definition params (q : filters) : list (string * json) :=
  (if q_is_palindrome q is Some b then [("is_palindrome"%string, JBool b)]
   else [])
  ++ (if q_min_length q is Some n then [("min_length"%string, JInt n)]
      else [])
  ++ (if q_max_length q is Some n then [("max_length"%string, JInt n)]
      else [])
  ++ (if q_word_count q is Some n then [("word_count"%string, JInt n)]
      else [])
  ++ (match q_contains_character q with
      | Some c =>
          if str_truthy c then [("contains_character"%string, JStr c)]
          else []
      | None => []
      end).

Definition get_all_strings (q : filters) : io ListResponse.t :=
  if bounds_rejected q then
    raise (HTTPException 422
             (py "Max length must be greater than Min length"))
  else
    let condition := conditions q in
    match condition with
    | [] => raise (HTTPException 404 DOES_NOT_EXIST)
    | _ =>
        result ← select_where condition;
        match result with
        | [] => raise (HTTPException 404 DOES_NOT_EXIST)
        | _ =>
            let data := string_response <$> result in
            mret {| ListResponse.data := data;
                    ListResponse.count := len data;
                    ListResponse.filters_applied := params q |}
        end
    end.

(** Up to its [return]; the statements after it are never executed. *)
Definition filter_by_natural_language (query : pystr) (reply : nlp_reply)
    : io json :=
  match reply with
  | RequestError exc =>
      raise (HTTPException 502 (py "Failed to reach NLP API: " ++ exc))
  | HTTPStatusError text =>
      raise (HTTPException 500 (py "NLP API returned error: " ++ text))
  | Response None =>
      raise (HTTPException 502 (py "Invalid JSON returned from NLP API"))
  | Response (Some parsed_filters) =>
      if negb (truthy parsed_filters) then
        raise (HTTPException 400
                 (py "Unable to parse natural language query"))
      else
        result ← await_json parsed_filters;
        mret result
  end.

(** ** The service as a transition system *)

Inductive request :=
  | PostString (req : GetRequest.t) (now : Z)
  | GetString (string_value : pystr)
  | GetAllStrings (q : filters)
  | FilterByNaturalLanguage (query : pystr) (reply : nlp_reply).

(** The session after a request was handled. *)
Definition serve (r : request) (s : session) : session :=
  match r with
  | PostString req now => (create_string req now s).2
  | GetString v => (get_string v s).2
  | GetAllStrings q => (get_all_strings q s).2
  | FilterByNaturalLanguage query reply =>
      (filter_by_natural_language query reply s).2
  end.

Definition step (s s' : session) : Prop := ∃ r, s' = serve r s.

End Routes.

Definition empty_session : session := {| table := []; executed := [] |}.

(** The states the service can be in, starting with an empty table. *)
Definition reachable `{Unicode} (s : session) : Prop := rtc step empty_session s.

(** What the data model promises of a stored row: [id] and [sha256_hash] are
    the same string, the hexadecimal SHA-256 digest of the UTF-8 bytes of the
    lowercased [value], and no key of the frequency map is a whitespace
    character. *)
Definition record_invariant `{Unicode} (r : Analyser.t) : Prop :=
  Analyser.id r = Analyser.sha256_hash r
  ∧ SHA256.hexdigest <$> UTF8.encode (lower (Analyser.value r))
    = Some (Analyser.sha256_hash r)
  ∧ ∀ k, is_Some (Analyser.character_frequency_map r !! k) →
         isspace k = false.

(** ** Notions used to state further properties *)

(** How many times [k] occurs in [s]. *)
Definition occurrences (k : Z) (s : pystr) : Z :=
  len (List.filter (λ c, c =? k) s).

(** A Unicode scalar value: a code point that is not a surrogate. *)
Definition scalar_value (c : Z) : bool :=
  ((0 <=? c) && (c <? 0xd800)) || ((0xe000 <=? c) && (c <? 0x110000)).

(** One of [0-9a-f]. *)
Definition hex_char (c : Z) : bool :=
  ((0x30 <=? c) && (c <=? 0x39)) || ((0x61 <=? c) && (c <=? 0x66)).

(** A row whose value is stripped and whose columns are the analysis of the
    lowercased value. *)
Definition derived_row `{Unicode} (r : Analyser.t) : Prop :=
  strip (Analyser.value r) = Analyser.value r
  ∧ Analyser.id r = Analyser.sha256_hash r
  ∧ create_properties (lower (Analyser.value r)) = Return (properties_of r).


(** ** hng/logger.py

    [V] is the type of Python objects.  Of a [LogRecord] the formatter reads
    four attributes by name, the truth value of [exc_info], and the items of
    [__dict__]; [formatTime], [getMessage] and [formatException] are those of
    the [logging] module. *)

Module Logger.
Section Formatter.
Context {V : Type}.

Record LogRecord := {
  levelname : V;
  name : V;
  pathname : V;
  lineno : V;
  exc_info : option V;                 (* [None] when falsy *)
  dict_items : list (string * V)       (* [record.__dict__.items()] *)
}.

Context (formatTime getMessage : LogRecord → V) (formatException : V → V).

(** The keys [format] does not copy from [record.__dict__]. *)
Definition reserved : list string :=
  ["name"; "msg"; "args"; "levelname"; "levelno"; "pathname"; "filename";
   "module"; "exc_info"; "exc_text"; "stack_info"; "lineno"; "funcName";
   "created"; "msecs"; "relativeCreated"; "thread"; "threadName";
   "processName"; "process"; "message"]%string.

(** One iteration of the loop over [record.__dict__.items()]. *)
Definition copy_item (log_record : gmap string V) (item : string * V)
    : gmap string V :=
  if bool_decide (item.1 ∈ reserved) then log_record
  else <[item.1 := item.2]> log_record.

(** [JsonFormatter.format], up to the dict handed to [json.dumps]. *)
Definition format (record : LogRecord) : gmap string V :=
  let log_record : gmap string V :=
    <["lineno"%string := lineno record]>
      (<["pathname"%string := pathname record]>
         (<["message"%string := getMessage record]>
            (<["logger"%string := name record]>
               (<["level"%string := levelname record]>
                  (<["timestamp"%string := formatTime record]> ∅))))) in
  let log_record :=
    match exc_info record with
    | Some e => <["exception"%string := formatException e]> log_record
    | None => log_record
    end in
  foldl copy_item log_record (dict_items record).

End Formatter.
Arguments LogRecord V : clear implicits.
End Logger.
(** * Properties *)

(** ** The tables and the hash *)

Example sha256_empty :
  SHA256.hexdigest [] =
  py "e3b0c44298fc1c149afbf4c8996fb92427ae41e4649b934ca495991b7852b855".
Proof. vm_compute. reflexivity. Qed.

Example sha256_abc :
  SHA256.hexdigest (py "abc") =
  py "ba7816bf8f01cfea414140de5dae2223b00361a396177a9cb410ff61f20015ad".
Proof. vm_compute. reflexivity. Qed.

Example sha256_two_blocks :
  SHA256.hexdigest (replicate 70 0x61) =
  py "6bd5e5034855a11241f0dee8fc72850ffd9955b28347a86428b5fa19119f6ad0".
Proof. vm_compute. reflexivity. Qed.

Module Latin1Facts.

Lemma lower_cp_stable c : Latin1.lower_cp c ≫= Latin1.lower_cp = Latin1.lower_cp c.
Proof.
  unfold Latin1.lower_cp.
  repeat case_match; simpl; unfold Latin1.lower_cp;
    repeat case_match; try reflexivity; lia.
Qed.

Lemma lower_idemp s : Latin1.lower (Latin1.lower s) = Latin1.lower s.
Proof.
  unfold Latin1.lower. induction s as [|c s IH]; [reflexivity|].
  rewrite bind_cons, bind_app, IH. f_equal. apply lower_cp_stable.
Qed.

End Latin1Facts.

#[export] Instance latin1 : Unicode :=
  {| lower := Latin1.lower;
     isalnum := Latin1.isalnum;
     lower_idemp := Latin1Facts.lower_idemp |}.

(** ** Strings and the frequency map *)

Lemma strip_one_char c : str_truthy (strip [c]) = negb (isspace c).
Proof.
  unfold strip, rstrip. simpl.
  destruct (isspace c) eqn:E; simpl; [reflexivity|].
  unfold reverse; simpl. rewrite E. reflexivity.
Qed.

Lemma count_char_keys freq c k :
  is_Some (count_char freq c !! k) →
  is_Some (freq !! k) ∨ (k = c ∧ isspace c = false).
Proof.
  unfold count_char. rewrite strip_one_char.
  destruct (isspace c) eqn:E; simpl; [auto|].
  destruct (decide (c = k)) as [->|Hne].
  - auto.
  - rewrite lookup_insert_ne by done. auto.
Qed.

Lemma foldl_count_char_keys s freq k :
  is_Some (foldl count_char freq s !! k) →
  is_Some (freq !! k) ∨ (k ∈ s ∧ isspace k = false).
Proof.
  revert freq. induction s as [|c s IH]; intros freq Hk; simpl in *.
  - auto.
  - apply IH in Hk as [Hk|[Hin Hsp]].
    + apply count_char_keys in Hk as [Hk|[-> Hsp]]; [auto|].
      right. split; [left|done].
    + right. split; [by right|done].
Qed.

Section UtilsFacts.
Context `{Unicode}.

(** A key of the frequency map is a character of the lowercased sentence
    and is not whitespace. *)
Lemma frequency_map_keys sentence k :
  is_Some (get_character_frequency_map sentence !! k) →
  k ∈ lower sentence ∧ isspace k = false.
Proof.
  unfold get_character_frequency_map. intros Hk.
  apply foldl_count_char_keys in Hk as [Hk|Hk]; [|done].
  rewrite lookup_empty in Hk. by destruct Hk.
Qed.

Lemma get_sha256_folded s : get_sha256 (lower s) = get_sha256 s.
Proof. unfold get_sha256. by rewrite lower_idemp. Qed.

Lemma create_properties_inv sentence p :
  create_properties sentence = Return p →
  get_sha256 sentence = Return (PropertiesModel.sha256_hash p)
  ∧ PropertiesModel.length p = len sentence
  ∧ PropertiesModel.is_palindrome p = get_is_palindrome sentence
  ∧ PropertiesModel.character_frequency_map p
    = get_character_frequency_map sentence.
Proof.
  unfold create_properties. destruct (get_sha256 sentence); [|done].
  intros [= <-]. done.
Qed.

End UtilsFacts.

(** ** The session *)

Lemma select_where_run conds s :
  select_where conds s
  = (Return (rows_where conds (table s)),
     {| table := table s; executed := executed s ++ [Select conds] |}).
Proof. reflexivity. Qed.

Lemma session_get_run pk s :
  session_get pk s
  = (Return (head (rows_where [IdEq pk] (table s))),
     {| table := table s; executed := executed s ++ [Select [IdEq pk]] |}).
Proof. reflexivity. Qed.

Lemma add_commit_table row s :
  match add_commit row s with
  | (Return _, s') =>
      table s' = table s ++ [row]
      ∧ rows_where [IdEq (Analyser.id row)] (table s) = []
  | (Raise _, s') => table s' = table s
  end.
Proof.
  unfold add_commit.
  destruct (existsb _ (table s)) eqn:E; simpl; [done|].
  split; [done|].
  unfold rows_where. induction (table s) as [|r t IH]; [done|].
  simpl in *. apply orb_false_iff in E as [E1 E2].
  apply orb_false_iff in E1 as [E1 _].
  rewrite E1. simpl. auto.
Qed.

Lemma rows_where_app conds t1 t2 :
  rows_where conds (t1 ++ t2) = rows_where conds t1 ++ rows_where conds t2.
Proof. apply List.filter_app. Qed.

Lemma rows_where_id_self row :
  rows_where [IdEq (Analyser.id row)] [row] = [row].
Proof.
  unfold rows_where. simpl. by rewrite bool_decide_eq_true_2.
Qed.

(** A row found by its key is still the first one found after rows were
    appended. *)
Lemma head_rows_where_prefix conds t1 t2 r :
  head (rows_where conds t1) = Some r →
  t1 `prefix_of` t2 →
  head (rows_where conds t2) = Some r.
Proof.
  intros Hr [k ->]. rewrite rows_where_app.
  destruct (rows_where conds t1); [done|]. done.
Qed.

Section RoutesFacts.
Context `{Unicode}.

(** What [create_string] did when it returned, and that it left the table
    alone when it raised. *)
Lemma create_string_run req now s :
  match create_string req now s with
  | (Return resp, s') =>
      ∃ v prop,
        GetRequest.value req = JStr v
        ∧ create_properties (lower (strip v)) = Return prop
        ∧ rows_where [IdEq (PropertiesModel.sha256_hash prop)] (table s) = []
        ∧ table s' = table s ++ [new_row prop (strip v) now]
        ∧ resp = {| StringResponse.id := PropertiesModel.sha256_hash prop;
                    StringResponse.value := strip v;
                    StringResponse.properties := prop;
                    StringResponse.created_at := now |}
  | (Raise _, s') => table s' = table s
  end.
Proof.
  unfold create_string.
  destruct (truthy (GetRequest.value req)); simpl; [|done].
  destruct (GetRequest.value req) as [| | | |v| |]; try done.
  unfold mbind, io_bind, lift.
  destruct (create_properties (lower (strip v))) as [prop|e] eqn:Hprop;
    [|done].
  rewrite session_get_run.
  destruct (head (rows_where _ (table s))) eqn:Hget; [done|].
  rewrite select_where_run. simpl.
  destruct (head (rows_where [ValueEq v] (table s))); [done|].
  match goal with |- context [add_commit ?r ?s0] =>
    pose proof (add_commit_table r s0) as Hadd;
    destruct (add_commit r s0) as [[[]|e] s1] end; [|done].
  destruct Hadd as [Htab Hfresh]. cbn [table] in Htab, Hfresh.
  unfold refresh, mbind, io_bind. rewrite session_get_run, Htab.
  rewrite rows_where_app, Hfresh, rows_where_id_self. simpl.
  exists v, prop. done.
Qed.

Lemma get_string_table v s : table (get_string v s).2 = table s.
Proof.
  unfold get_string, mbind, io_bind, lift.
  destruct (get_sha256 _); [|done].
  rewrite select_where_run. by destruct (head _).
Qed.

Lemma get_all_strings_table q s : table (get_all_strings q s).2 = table s.
Proof.
  unfold get_all_strings.
  destruct (bounds_rejected q); [done|].
  destruct (conditions q); [done|].
  unfold mbind, io_bind. rewrite select_where_run.
  by destruct (rows_where _ _).
Qed.

Lemma filter_by_natural_language_session query reply s :
  (filter_by_natural_language query reply s).2 = s.
Proof.
  unfold filter_by_natural_language.
  destruct reply as [| |[body|]]; try done.
  by destruct (truthy body).
Qed.

(** A request leaves every stored row where it is. *)
Lemma serve_prefix r s : table s `prefix_of` table (serve r s).
Proof.
  destruct r as [req now|v|q|query reply]; simpl.
  - pose proof (create_string_run req now s) as Hrun.
    destruct (create_string req now s) as [[resp|e] s']; simpl.
    + destruct Hrun as (v & prop & _ & _ & _ & -> & _).
      by apply prefix_app_r.
    + by rewrite Hrun.
  - by rewrite get_string_table.
  - by rewrite get_all_strings_table.
  - by rewrite filter_by_natural_language_session.
Qed.

Lemma steps_prefix s s' : rtc step s s' → table s `prefix_of` table s'.
Proof.
  induction 1 as [|s1 s2 s3 [r ->] _ IH]; [done|].
  etrans; [apply serve_prefix|done].
Qed.

End RoutesFacts.

(** ** The analysis functions *)

(** The docstring examples of hng/utils.py, evaluated. *)
Example word_count_example : get_word_count (py "Hello world, again!") = 3.
Proof. vm_compute. reflexivity. Qed.

Example unique_characters_example : get_unique_characters (py "Hello") = 4.
Proof. vm_compute. reflexivity. Qed.

Example frequency_map_example :
  get_character_frequency_map (py "aabB") = {[ 0x61 := 2; 0x62 := 2 ]}.
Proof. vm_compute. reflexivity. Qed.

(** The hash is that of the lowercased sentence: for "Hello" it is the digest
    of "hello", not the digest 185f8db3... of "Hello" the docstring shows. *)
Example sha256_example :
  get_sha256 (py "Hello") =
  Return
    (py "2cf24dba5fb0a30e26e83b2ac5b9e29e1b161e5c1fa7425e73043362938b9824").
Proof. vm_compute. reflexivity. Qed.

(** Punctuation and spaces count: the docstring example of
    [get_is_palindrome] is not a palindrome for the code. *)
Example palindrome_example :
  get_is_palindrome (py "Madam, I'm Adam") = false
  ∧ get_is_palindrome (py "Madam") = true.
Proof. vm_compute. done. Qed.

(** [create_properties] on its own measures the sentence it is given. *)
Lemma create_properties_length `{Unicode} sentence p :
  create_properties sentence = Return p →
  PropertiesModel.length p = len sentence.
Proof. intros Hp. by apply create_properties_inv in Hp as (_ & ? & _). Qed.

(** C3. [create_string] analyses [value.lower()].  Whenever the analysis of
    a folded string returns, its [length] is the number of characters of the
    folded string, and it fails only when the folded string has no UTF-8
    encoding; so the [length] in the response of a creation is that of the
    folded, stripped value.  The folded string can be longer than the
    original: for the one-character string U+0130 the length is 2. *)
Theorem analysed_length_is_folded_length :
  (∀ (U : Unicode) (s : pystr),
     match create_properties (lower s) with
     | Return p => PropertiesModel.length p = len (lower s)
     | Raise e => e = UnicodeEncodeError ∧ UTF8.encode (lower s) = None
     end)
  ∧ (∀ (U : Unicode) (v : pystr) (now : Z) (σ : session),
       match (create_string {| GetRequest.value := JStr v |} now σ).1 with
       | Return resp =>
           PropertiesModel.length (StringResponse.properties resp)
           = len (lower (strip v))
       | Raise _ => True
       end)
  ∧ (PropertiesModel.length <$> returned (create_properties (lower [0x130]))
     = Some 2
     ∧ len [0x130] = 1).
Proof.
  split; [|split].
  - intros U s. unfold create_properties, get_sha256.
    rewrite lower_idemp. by destruct (UTF8.encode (lower s)).
  - intros U v now σ.
    pose proof (create_string_run {| GetRequest.value := JStr v |} now σ)
      as Hrun.
    destruct (create_string _ now σ) as [[resp|?] ?]; [|done].
    destruct Hrun as (v' & p & [= <-] & Hp & _ & _ & ->).
    simpl. by apply create_properties_length.
  - vm_compute. done.
Qed.

(** C4. [is_palindrome] is true exactly when the lowercased sentence is equal
    to its own reverse, character for character. *)
Theorem is_palindrome_iff_folded_reverse `{Unicode} (s : pystr) :
  get_is_palindrome s = true ↔ lower s = reverse (lower s).
Proof. unfold get_is_palindrome. apply bool_decide_eq_true. Qed.

(** C5. The [sha256_hash] of the analysis is the hexadecimal SHA-256 digest
    of the UTF-8 bytes of the lowercased sentence (and the analysis raises
    exactly when these bytes do not exist); the analysis is a function of the
    sentence alone, so the properties in the response of a creation do not
    depend on the stored rows or on the time of the request. *)
Theorem sha256_hash_is_digest_of_folded `{Unicode} (s : pystr) :
  PropertiesModel.sha256_hash <$> returned (create_properties s)
  = SHA256.hexdigest <$> UTF8.encode (lower s)
  ∧ ∀ now now' σ σ',
      match (create_string {| GetRequest.value := JStr s |} now σ).1,
            (create_string {| GetRequest.value := JStr s |} now' σ').1 with
      | Return r, Return r' =>
          StringResponse.properties r = StringResponse.properties r'
      | _, _ => True
      end.
Proof.
  split.
  - unfold create_properties, get_sha256.
    by destruct (UTF8.encode (lower s)).
  - intros now now' σ σ'.
    pose proof (create_string_run {| GetRequest.value := JStr s |} now σ) as H1.
    pose proof (create_string_run {| GetRequest.value := JStr s |} now' σ')
      as H2.
    destruct (create_string _ now σ) as [[r|?] ?]; [|done].
    destruct (create_string _ now' σ') as [[r'|?] ?]; [|done].
    destruct H1 as (v & p & [= <-] & Hp & _ & _ & ->).
    destruct H2 as (v' & p' & [= <-] & Hp' & _ & _ & ->).
    simpl. congruence.
Qed.

(** ** GET /strings/ *)

Lemma bounds_rejected_iff q :
  bounds_rejected q = true ↔
  ∃ max_length min_length,
    q_max_length q = Some max_length ∧ q_min_length q = Some min_length
    ∧ max_length ≠ 0 ∧ min_length ≠ 0 ∧ max_length < min_length.
Proof.
  unfold bounds_rejected. split.
  - destruct (q_max_length q) as [mx|], (q_min_length q) as [mn|]; try done.
    intros Hb. exists mx, mn.
    apply andb_true_iff in Hb as [Hb ?%Z.ltb_lt].
    apply andb_true_iff in Hb as [?%negb_true_iff%Z.eqb_neq
                                    ?%negb_true_iff%Z.eqb_neq].
    done.
  - intros (mx & mn & -> & -> & ?%Z.eqb_neq & ?%Z.eqb_neq & ?%Z.ltb_lt).
    by repeat (apply andb_true_iff; split); try apply negb_true_iff.
Qed.

(** Inconsistent non-zero bounds are refused before any statement is
    executed. *)
Lemma get_all_strings_rejected `{Unicode} q s :
  bounds_rejected q = true →
  ∃ detail, get_all_strings q s = (Raise (HTTPException 422 detail), s).
Proof. intros Hq. unfold get_all_strings. rewrite Hq. by eexists. Qed.

Lemma rows_where_none conds t :
  (∀ r, forallb (holds r) conds = false) → rows_where conds t = [].
Proof.
  intros Hnone. unfold rows_where.
  induction t as [|r t IH]; [done|].
  cbn [List.filter]. by rewrite Hnone.
Qed.

Lemma bounds_in_conditions `{Unicode} q max_length min_length :
  q_max_length q = Some max_length →
  q_min_length q = Some min_length →
  LengthGe min_length ∈ conditions q ∧ LengthLe max_length ∈ conditions q.
Proof.
  intros Hmax Hmin. unfold conditions. rewrite Hmax, Hmin.
  split; set_solver.
Qed.

Lemma no_row_within conds t lo hi :
  LengthGe lo ∈ conds → LengthLe hi ∈ conds → hi < lo →
  rows_where conds t = [].
Proof.
  intros Hlo Hhi Hlt. apply rows_where_none. intros r.
  apply not_true_is_false. intros Hall.
  rewrite forallb_forall in Hall.
  apply list_elem_of_In, Hall in Hlo, Hhi. simpl in Hlo, Hhi.
  apply Z.leb_le in Hlo, Hhi. lia.
Qed.

(** C1. When both bounds are supplied, [max_length < min_length] and one of
    them is 0, the bound check does not fire: 0 is falsy in
    [max_length and min_length and ...].  The query is built and executed,
    finds nothing, and the answer is 404, not 422. *)
Theorem get_all_strings_zero_bound `{Unicode}
    (q : filters) (max_length min_length : Z) (s : session) :
  q_max_length q = Some max_length →
  q_min_length q = Some min_length →
  max_length < min_length →
  max_length = 0 ∨ min_length = 0 →
  get_all_strings q s
  = (Raise (HTTPException 404 DOES_NOT_EXIST),
     {| table := table s;
        executed := executed s ++ [Select (conditions q)] |}).
Proof.
  intros Hmax Hmin Hlt Hzero.
  destruct (bounds_in_conditions q _ _ Hmax Hmin) as [Hge Hle].
  unfold get_all_strings.
  assert (bounds_rejected q = false) as ->.
  { unfold bounds_rejected. rewrite Hmax, Hmin.
    destruct Hzero as [-> | ->]; [done|]. by rewrite andb_false_r. }
  destruct (conditions q) as [|c cs] eqn:Hc; [by apply elem_of_nil in Hge|].
  unfold mbind, io_bind.
  by rewrite select_where_run, (no_row_within _ _ _ _ Hge Hle Hlt).
Qed.

Lemma get_all_strings_zero_bound_witness :
  get_all_strings
    {| q_is_palindrome := None; q_min_length := Some 5;
       q_max_length := Some 0; q_word_count := None;
       q_contains_character := None |} empty_session
  = (Raise (HTTPException 404 DOES_NOT_EXIST),
     {| table := [];
        executed := [Select [LengthGe 5; LengthLe 0]] |}).
Proof.
  exact (get_all_strings_zero_bound
           {| q_is_palindrome := None; q_min_length := Some 5;
              q_max_length := Some 0; q_word_count := None;
              q_contains_character := None |}
           0 5 empty_session eq_refl eq_refl eq_refl (or_introl eq_refl)).
Defined.


(** ** GET /strings/filter-by-natural-language *)

(** C2. When the remote service answers with a non-empty JSON body, the
    handler reaches [return await parsed_filters], and awaiting a decoded
    JSON value raises [TypeError]: nothing is returned to the caller.  No
    statement is sent to the database. *)
Theorem filter_by_natural_language_raises `{Unicode}
    (query : pystr) (body : json) (s : session) :
  truthy body = true →
  filter_by_natural_language query (Response (Some body)) s
  = (Raise TypeError, s).
Proof. intros Hb. unfold filter_by_natural_language. by rewrite Hb. Qed.

Lemma filter_by_natural_language_raises_witness :
  truthy (JDict [(py "min_length", JInt 11)]) = true
  ∧ filter_by_natural_language (py "strings longer than 10 characters")
      (Response (Some (JDict [(py "min_length", JInt 11)]))) empty_session
    = (Raise TypeError, empty_session).
Proof.
  split; [reflexivity|].
  apply filter_by_natural_language_raises. reflexivity.
Defined.

(** ** POST /strings/ *)

(** C10. A falsy value is answered 400 whatever its type: the test
    [not req.value] comes before the [isinstance] test. *)
Theorem create_string_falsy_is_400 `{Unicode}
    (req : GetRequest.t) (now : Z) (s : session) :
  truthy (GetRequest.value req) = false →
  (∀ str, GetRequest.value req ≠ JStr str) →
  create_string req now s = (Raise (HTTPException 400 EMPTY_STRING), s)
  ∧ status_code 201 (create_string req now s).1 ≠ 422.
Proof.
  intros Hv _. unfold create_string. rewrite Hv. simpl. done.
Qed.

Lemma create_string_falsy_is_400_witness :
  Forall (λ v, truthy v = false
               ∧ (∀ str, v ≠ JStr str)
               ∧ create_string {| GetRequest.value := v |} 0 empty_session
                 = (Raise (HTTPException 400 EMPTY_STRING), empty_session))
    [JInt 0; JBool false; JNull; JList []; JDict []; JFloat 0%float].
Proof.
  repeat (apply Forall_cons; split;
          [split; [reflexivity|split; [done|]];
           apply create_string_falsy_is_400; [reflexivity|done] |]).
  apply Forall_nil_2.
Defined.

Section Persistence.
Context `{Unicode}.

Lemma properties_of_new_row prop value now :
  properties_of (new_row prop value now) = prop.
Proof. by destruct prop. Qed.

Lemma get_sha256_inv sentence hash :
  get_sha256 sentence = Return hash →
  SHA256.hexdigest <$> UTF8.encode (lower sentence) = Some hash.
Proof.
  unfold get_sha256. destruct (UTF8.encode (lower sentence)); [|done].
  by intros [= <-].
Qed.

(** The row [create_string] builds satisfies the invariant. *)
Lemma new_row_invariant prop value now :
  create_properties (lower value) = Return prop →
  record_invariant (new_row prop value now).
Proof.
  intros Hprop.
  apply create_properties_inv in Hprop as (Hhash & _ & _ & Hfreq).
  rewrite get_sha256_folded in Hhash. apply get_sha256_inv in Hhash.
  split; [done|]. split; [done|].
  simpl. rewrite Hfreq. intros k Hk.
  by apply frequency_map_keys in Hk as [_ ?].
Qed.

(** A request either leaves the table as it is or appends the row of a
    successful creation. *)
Lemma serve_table r s :
  table (serve r s) = table s
  ∨ ∃ v prop now,
      create_properties (lower (strip v)) = Return prop
      ∧ table (serve r s) = table s ++ [new_row prop (strip v) now].
Proof.
  destruct r as [req now|v|q|query reply]; simpl.
  - pose proof (create_string_run req now s) as Hrun.
    destruct (create_string req now s) as [[resp|e] s']; simpl; [|by left].
    destruct Hrun as (v & prop & _ & Hprop & _ & -> & _).
    right. by exists v, prop, now.
  - left. apply get_string_table.
  - left. apply get_all_strings_table.
  - left. by rewrite filter_by_natural_language_session.
Qed.

(** The created row is the one found by its hash, now and later. *)
Lemma created_row_found prop value now s s' :
  rows_where [IdEq (PropertiesModel.sha256_hash prop)] (table s) = [] →
  (table s ++ [new_row prop value now]) `prefix_of` table s' →
  head (rows_where [IdEq (PropertiesModel.sha256_hash prop)] (table s'))
  = Some (new_row prop value now).
Proof.
  intros Hfresh Hpre.
  eapply head_rows_where_prefix; [|exact Hpre].
  rewrite rows_where_app, Hfresh.
  change (PropertiesModel.sha256_hash prop)
    with (Analyser.id (new_row prop value now)).
  by rewrite rows_where_id_self.
Qed.

Lemma serve_invariant r s :
  Forall record_invariant (table s) →
  Forall record_invariant (table (serve r s)).
Proof.
  intros Hs.
  destruct (serve_table r s) as [->|(v & prop & now & Hprop & ->)]; [done|].
  apply Forall_app. split; [done|].
  apply Forall_singleton. by apply new_row_invariant.
Qed.

Lemma steps_invariant s s' :
  rtc step s s' →
  Forall record_invariant (table s) →
  Forall record_invariant (table s').
Proof.
  induction 1 as [|s1 s2 s3 [r ->] _ IH]; [done|].
  intros Hs. by apply IH, serve_invariant.
Qed.

End Persistence.

(** C7. A creation that raises, for whatever reason, leaves the table as it
    was; a creation that returns has appended exactly one row, and the
    response shows that row, with [created_at] the time of the request. *)
Theorem create_string_atomic `{Unicode}
    (req : GetRequest.t) (now : Z) (s : session) :
  match create_string req now s with
  | (Return resp, s') =>
      ∃ row,
        table s' = table s ++ [row]
        ∧ resp = string_response row
        ∧ StringResponse.created_at resp = now
  | (Raise _, s') => table s' = table s
  end.
Proof.
  pose proof (create_string_run req now s) as Hrun.
  destruct (create_string req now s) as [[resp|e] s']; [|done].
  destruct Hrun as (v & prop & _ & _ & _ & -> & ->).
  exists (new_row prop (strip v) now).
  unfold string_response. by rewrite properties_of_new_row.
Qed.

(** The three kinds of refusal of [create_string]. *)
Lemma create_string_empty `{Unicode} req now s :
  truthy (GetRequest.value req) = false →
  create_string req now s = (Raise (HTTPException 400 EMPTY_STRING), s).
Proof. intros Hv. unfold create_string. by rewrite Hv. Qed.

Lemma create_string_not_string `{Unicode} req now s :
  truthy (GetRequest.value req) = true →
  (∀ str, GetRequest.value req ≠ JStr str) →
  create_string req now s = (Raise (HTTPException 422 NOT_STRING), s).
Proof.
  intros Hv Hns. unfold create_string. rewrite Hv. simpl.
  destruct (GetRequest.value req); try done. by destruct (Hns s0).
Qed.

Lemma rows_where_elem conds t r :
  r ∈ t → forallb (holds r) conds = true → rows_where conds t ≠ [].
Proof.
  intros Hin Hr Hnil.
  assert (In r (rows_where conds t)) as Hin'.
  { apply List.filter_In. split; [by apply list_elem_of_In|done]. }
  by rewrite Hnil in Hin'.
Qed.

Lemma create_string_duplicate `{Unicode} v prop now s r :
  truthy (JStr v) = true →
  create_properties (lower (strip v)) = Return prop →
  r ∈ table s →
  Analyser.id r = PropertiesModel.sha256_hash prop ∨ Analyser.value r = v →
  (create_string {| GetRequest.value := JStr v |} now s).1
  = Raise (HTTPException 409 DUPLICATE_VALUE).
Proof.
  intros Hv Hprop Hin Hdup. unfold create_string.
  cbn [GetRequest.value]. rewrite Hv. cbn [negb].
  unfold mbind, io_bind, lift. rewrite Hprop, session_get_run.
  destruct (head (rows_where _ (table s))) eqn:Hget; [done|].
  rewrite select_where_run. cbn [table].
  destruct (head (rows_where [ValueEq v] (table s))) eqn:Hval; [done|].
  exfalso. destruct Hdup as [Hid|Hvalue].
  - apply (rows_where_elem [IdEq (PropertiesModel.sha256_hash prop)]) in Hin.
    + by destruct (rows_where _ (table s)).
    + simpl. by rewrite bool_decide_eq_true_2.
  - apply (rows_where_elem [ValueEq v]) in Hin.
    + by destruct (rows_where [ValueEq v] (table s)).
    + simpl. by rewrite bool_decide_eq_true_2.
Qed.

(** C8. After a successful creation of [v], now or after any further
    requests, [get_string v] returns, and what it returns is the response of
    the creation: the same id, value, creation time and six properties. *)
Theorem create_then_get_round_trip `{Unicode}
    (v : pystr) (now : Z) (s s' s'' : session) (resp : StringResponse.t) :
  create_string {| GetRequest.value := JStr v |} now s = (Return resp, s') →
  rtc step s' s'' →
  (get_string v s'').1 = Return resp.
Proof.
  intros Hcreate Hsteps.
  pose proof (create_string_run {| GetRequest.value := JStr v |} now s)
    as Hrun.
  rewrite Hcreate in Hrun.
  destruct Hrun as (v' & prop & [= <-] & Hprop & Hfresh & Htab & ->).
  apply steps_prefix in Hsteps. rewrite Htab in Hsteps.
  apply create_properties_inv in Hprop as Hinv.
  destruct Hinv as (Hhash & _).
  unfold get_string, mbind, io_bind, lift.
  rewrite Hhash, select_where_run.
  rewrite (created_row_found prop (strip v) now s s'') by done.
  simpl. unfold string_response. by rewrite properties_of_new_row.
Qed.

Lemma create_then_get_round_trip_witness :
  ∃ resp s',
    create_string {| GetRequest.value := JStr (py " Madam ") |} 7
      empty_session = (Return resp, s')
    ∧ (get_string (py " Madam ") s').1 = Return resp
    ∧ StringResponse.value resp = py "Madam"
    ∧ PropertiesModel.length (StringResponse.properties resp) = 5.
Proof.
  destruct (create_string {| GetRequest.value := JStr (py " Madam ") |} 7
              empty_session) as [[resp|e] s'] eqn:Hcreated.
  - exists resp, s'. split; [reflexivity|]. split.
    + apply (create_then_get_round_trip (py " Madam ") 7 empty_session s' s');
        [exact Hcreated | apply rtc_refl].
    + revert Hcreated. vm_compute. by intros [= <- _].
  - exfalso. revert Hcreated. vm_compute. discriminate.
Defined.

(** C9. In every state the service can reach, every stored row satisfies the
    invariant, and no request changes or removes a stored row: the table
    after a request starts with the table before it. *)
Theorem persisted_records_invariant `{Unicode} (s : session) :
  reachable s →
  Forall record_invariant (table s)
  ∧ ∀ r, table s `prefix_of` table (serve r s).
Proof.
  intros Hreach. split; [|intros r; apply serve_prefix].
  eapply steps_invariant; [exact Hreach|]. apply Forall_nil_2.
Qed.

Lemma persisted_records_invariant_witness :
  reachable
    (serve (PostString {| GetRequest.value := JStr (py " Madam ") |} 7)
       empty_session)
  ∧ length (table
      (serve (PostString {| GetRequest.value := JStr (py " Madam ") |} 7)
         empty_session)) = 1%nat
  ∧ Forall record_invariant
      (table
         (serve (PostString {| GetRequest.value := JStr (py " Madam ") |} 7)
            empty_session)).
Proof.
  assert (reachable
            (serve (PostString {| GetRequest.value := JStr (py " Madam ") |} 7)
               empty_session)) as Hreach.
  { apply rtc_once. by eexists. }
  split; [exact Hreach|]. split; [vm_compute; reflexivity|].
  by apply persisted_records_invariant.
Defined.

(** * Further properties *)

(** ** The frequency map counts occurrences *)

Lemma occurrences_nonneg k s : 0 ≤ occurrences k s.
Proof. unfold occurrences, len. lia. Qed.

Lemma occurrences_cons k c s :
  occurrences k (c :: s) = (if c =? k then 1 else 0) + occurrences k s.
Proof.
  unfold occurrences, len. simpl. destruct (c =? k); simpl; lia.
Qed.

Lemma occurrences_pos_iff k s : 0 < occurrences k s ↔ k ∈ s.
Proof.
  induction s as [|c s IH].
  - split; [unfold occurrences, len; simpl; lia|by intros ?%elem_of_nil].
  - rewrite occurrences_cons, elem_of_cons.
    pose proof (occurrences_nonneg k s).
    destruct (c =? k) eqn:E.
    + apply Z.eqb_eq in E. split; [auto|lia].
    + apply Z.eqb_neq in E. split.
      * intros Hpos. right. apply IH. lia.
      * intros [->|Hin]; [done|]. apply IH in Hin. lia.
Qed.

Lemma foldl_count_char_lookup s freq k :
  foldl count_char freq s !! k
  = if isspace k || (occurrences k s =? 0) then freq !! k
    else Some (default 0 (freq !! k) + occurrences k s).
Proof.
  revert freq. induction s as [|c s IH]; intros freq.
  - simpl. by rewrite orb_true_r.
  - simpl. rewrite IH, occurrences_cons.
    pose proof (occurrences_nonneg k s) as Hnn.
    unfold count_char. rewrite strip_one_char.
    destruct (decide (c = k)) as [->|Hne].
    + rewrite Z.eqb_refl.
      destruct (isspace k) eqn:Hsp; simpl; [done|].
      rewrite lookup_insert_eq. simpl.
      replace (1 + occurrences k s =? 0) with false
        by (symmetry; apply Z.eqb_neq; lia).
      destruct (occurrences k s =? 0) eqn:E.
      * apply Z.eqb_eq in E. rewrite E. f_equal; lia.
      * f_equal; lia.
    + replace (c =? k) with false by (symmetry; by apply Z.eqb_neq).
      rewrite Z.add_0_l.
      destruct (isspace c); simpl; [done|].
      by rewrite lookup_insert_ne.
Qed.

(** X1. The frequency map has an entry for [k] exactly when [k] is not a
    whitespace character and occurs in the lowercased sentence, and the entry
    is the number of its occurrences there. *)
Theorem frequency_map_counts `{Unicode} (sentence : pystr) (k : Z) :
  get_character_frequency_map sentence !! k
  = if isspace k || (occurrences k (lower sentence) =? 0) then None
    else Some (occurrences k (lower sentence)).
Proof.
  unfold get_character_frequency_map.
  rewrite foldl_count_char_lookup, lookup_empty. simpl.
  by destruct (isspace k || _).
Qed.

Lemma frequency_map_is_Some `{Unicode} sentence k :
  is_Some (get_character_frequency_map sentence !! k)
  ↔ k ∈ lower sentence ∧ isspace k = false.
Proof.
  split; [apply frequency_map_keys|].
  intros [Hin Hsp]. rewrite frequency_map_counts, Hsp. simpl.
  apply occurrences_pos_iff in Hin.
  replace (occurrences k (lower sentence) =? 0) with false
    by (symmetry; apply Z.eqb_neq; lia).
  by eexists.
Qed.

(** X2. The frequency map never has more keys than [unique_characters]
    counts, and has exactly as many when the lowercased sentence contains no
    whitespace. *)
Theorem frequency_map_size `{Unicode} (sentence : pystr) :
  Z.of_nat (size (get_character_frequency_map sentence))
  ≤ get_unique_characters sentence
  ∧ (Forall (λ c, isspace c = false) (lower sentence) →
     Z.of_nat (size (get_character_frequency_map sentence))
     = get_unique_characters sentence).
Proof.
  unfold get_unique_characters. rewrite <- size_dom.
  split.
  - apply inj_le, subseteq_size. intros k Hk.
    apply elem_of_dom, frequency_map_keys in Hk as [Hk _].
    by apply elem_of_list_to_set.
  - intros Hns. do 2 f_equal. apply set_eq. intros k.
    rewrite elem_of_dom, frequency_map_is_Some, elem_of_list_to_set.
    split; [by intros [? _]|]. intros Hin. split; [done|].
    by eapply Forall_forall in Hns.
Qed.

Lemma frequency_map_size_witness :
  Forall (λ c, isspace c = false) (lower (py "Hello"))
  ∧ Z.of_nat (size (get_character_frequency_map (py "Hello"))) = 4
  ∧ get_unique_characters (py "Hello") = 4.
Proof.
  assert (Forall (λ c, isspace c = false) (lower (py "Hello"))) as Hns.
  { vm_compute. repeat constructor. }
  split; [exact Hns|].
  split; [|vm_compute; reflexivity].
  destruct (frequency_map_size (py "Hello")) as [_ Heq].
  rewrite (Heq Hns). vm_compute. reflexivity.
Defined.

(** ** Words *)

Section Words.
Context `{Unicode}.

Lemma findall_words_join run s :
  mjoin (findall_words run s) = reverse run ++ List.filter isword s.
Proof.
  revert run. induction s as [|c s IH]; intros run; simpl.
  - destruct run; simpl; [done|]. by rewrite !app_nil_r.
  - destruct (isword c) eqn:Hc.
    + rewrite IH, reverse_cons, <- app_assoc. done.
    + destruct run as [|r run]; simpl; [by rewrite IH|].
      by rewrite IH.
Qed.

Lemma findall_words_nonempty run s :
  Forall (λ w, w ≠ []) (findall_words run s).
Proof.
  assert (∀ (r : Z) (rs : pystr), reverse (r :: rs) ≠ []) as Hrev.
  { intros r rs Hnil. apply (f_equal length) in Hnil.
    rewrite length_reverse in Hnil. done. }
  revert run. induction s as [|c s IH]; intros run; simpl.
  - destruct run; [constructor|]. repeat constructor. apply Hrev.
  - destruct (isword c); [apply IH|].
    destruct run; [apply IH|]. constructor; [apply Hrev|apply IH].
Qed.

Lemma findall_words_word_chars run s :
  Forall (λ c, isword c = true) run →
  Forall (Forall (λ c, isword c = true)) (findall_words run s).
Proof.
  revert run. induction s as [|c s IH]; intros run Hrun; simpl.
  - destruct run; [constructor|]. repeat constructor.
    by apply Forall_reverse.
  - destruct (isword c) eqn:Hc; [by apply IH; constructor|].
    destruct run; [by apply IH|].
    constructor; [by apply Forall_reverse|by apply IH].
Qed.

(** A character outside [\w] ends the word being read. *)
Lemma findall_words_separator run a c b :
  isword c = false →
  findall_words run (a ++ c :: b) = findall_words run a ++ findall_words [] b.
Proof.
  intros Hc. revert run. induction a as [|x a IH]; intros run; simpl.
  - rewrite Hc. by destruct run.
  - destruct (isword x); [apply IH|].
    destruct run; [apply IH|]. by rewrite IH.
Qed.

Lemma findall_words_all_word run s :
  Forall (λ c, isword c = true) s →
  findall_words run s
  = match reverse run ++ s with [] => [] | w => [w] end.
Proof.
  revert run. induction s as [|c s IH]; intros run Hs; simpl.
  - rewrite app_nil_r. destruct run as [|r run]; [done|].
    destruct (reverse (r :: run)) eqn:E; [|done].
    apply (f_equal length) in E. by rewrite length_reverse in E.
  - inversion Hs as [|? ? Hc Hs']; subst. rewrite Hc, IH by done.
    by rewrite reverse_cons, <- app_assoc.
Qed.

Lemma length_le_join (ws : list pystr) :
  Forall (λ w, w ≠ []) ws → (length ws ≤ length (mjoin ws))%nat.
Proof.
  induction 1 as [|w ws Hw _ IH]; simpl; [done|].
  rewrite length_app. destruct w; [done|]. simpl. lia.
Qed.

End Words.

Lemma filter_none {A} (f : A → bool) (l : list A) :
  Forall (λ x, f x = false) l → List.filter f l = [].
Proof.
  induction 1 as [|x l Hx _ IH]; [done|]. simpl. by rewrite Hx.
Qed.

Lemma word_count_le_word_chars `{Unicode} sentence :
  get_word_count sentence ≤ len (List.filter isword (lower sentence)).
Proof.
  pose proof (findall_words_join [] (lower sentence)) as Hjoin.
  change (reverse [] ++ ?l) with l in Hjoin.
  unfold get_word_count, len. rewrite <- Hjoin.
  apply inj_le, length_le_join, findall_words_nonempty.
Qed.

(** X3. [get_word_count] is 0 exactly when the lowercased sentence has no
    word character, and is never more than the number of its word
    characters; the words found, joined, are the word characters in order. *)
Theorem word_count_bounds `{Unicode} (sentence : pystr) :
  (get_word_count sentence = 0
   ↔ Forall (λ c, isword c = false) (lower sentence))
  ∧ 0 ≤ get_word_count sentence
      ≤ len (List.filter isword (lower sentence))
  ∧ mjoin (findall_words [] (lower sentence))
    = List.filter isword (lower sentence).
Proof.
  pose proof (findall_words_join [] (lower sentence)) as Hjoin.
  pose proof (findall_words_nonempty [] (lower sentence)) as Hne.
  change (reverse [] ++ ?l) with l in Hjoin.
  unfold get_word_count, len. split; [|split; [|done]].
  - split.
    + intros Hzero.
      destruct (findall_words [] (lower sentence)) as [|w ws]; [|done].
      simpl in Hjoin. apply Forall_forall. intros c Hc.
      apply not_true_is_false. intros Hw.
      assert (In c (List.filter isword (lower sentence))) as Hin.
      { apply List.filter_In. split; [by apply list_elem_of_In|done]. }
      by rewrite <- Hjoin in Hin.
    + intros Hnone.
      assert (List.filter isword (lower sentence) = []) as Hnil.
      { by apply filter_none. }
      rewrite Hnil in Hjoin.
      destruct (findall_words [] (lower sentence)) as [|w ws]; [done|].
      inversion Hne as [|? ? Hw _]; subst.
      simpl in Hjoin. apply app_eq_nil in Hjoin as [Hwnil _]. done.
  - split; [lia|]. rewrite <- Hjoin. apply inj_le. by apply length_le_join.
Qed.

(** X4. What [re.findall] does with its input: a character outside [\w]
    separates the words before it from the words after it, a non-empty run of
    word characters is one word, and every word found is such a run. *)
Theorem findall_words_runs `{Unicode} :
  (∀ a c b, isword c = false →
     findall_words [] (a ++ c :: b)
     = findall_words [] a ++ findall_words [] b)
  ∧ (∀ w, w ≠ [] → Forall (λ c, isword c = true) w →
       findall_words [] w = [w])
  ∧ (∀ s, Forall (λ w, w ≠ [] ∧ Forall (λ c, isword c = true) w)
            (findall_words [] s)).
Proof.
  split; [|split].
  - intros a c b Hc. by apply findall_words_separator.
  - intros w Hw Hall. rewrite findall_words_all_word by done.
    by destruct w.
  - intros s. apply Forall_and. split.
    + apply findall_words_nonempty.
    + by apply findall_words_word_chars.
Qed.

Lemma findall_words_runs_witness :
  isword 0x2c = false
  ∧ findall_words [] (py "again" ++ 0x2c :: py "a_b")
    = [py "again"; py "a_b"].
Proof.
  split; [reflexivity|].
  destruct (findall_words_runs (H := latin1)) as (Hsep & Hone & _).
  rewrite Hsep by reflexivity.
  rewrite !Hone; [reflexivity|done|vm_compute; repeat constructor
                 |done|vm_compute; repeat constructor].
Defined.

(** ** The hash *)

Module SHA256Facts.

Lemma round_length st kw : length st = 8%nat → length (SHA256.round st kw) = 8%nat.
Proof.
  intros Hst. do 9 (destruct st as [|? st]; try done).
Qed.

Lemma rounds_length kws st :
  length st = 8%nat → length (foldl SHA256.round st kws) = 8%nat.
Proof.
  revert st. induction kws as [|kw kws IH]; intros st Hst; [done|].
  simpl. by apply IH, round_length.
Qed.

Lemma compress_length h block :
  length h = 8%nat → length (SHA256.compress h block) = 8%nat.
Proof.
  intros Hh. unfold SHA256.compress.
  rewrite length_zip_with, rounds_length by done. lia.
Qed.

Lemma compress_all_length bs h :
  length h = 8%nat → length (foldl SHA256.compress h bs) = 8%nat.
Proof.
  revert h. induction bs as [|b bs IH]; intros h Hh; [done|].
  simpl. by apply IH, compress_length.
Qed.

Lemma be_bytes_length k n : length (SHA256.be_bytes k n) = k.
Proof. induction k as [|k IH]; simpl; [done|]. by rewrite IH. Qed.

Lemma be_bytes_range k n :
  Forall (λ b, 0 ≤ b < 256) (SHA256.be_bytes k n).
Proof.
  induction k as [|k IH]; simpl; constructor; [|done].
  change 0xff with (Z.ones 8). rewrite Z.land_ones by lia.
  change (2 ^ 8) with 256. apply Z.mod_pos_bound. lia.
Qed.

Lemma join_length {A} (n : nat) (ls : list (list A)) :
  Forall (λ l, length l = n) ls → length (mjoin ls) = (n * length ls)%nat.
Proof.
  induction 1 as [|l ls Hl _ IH]; simpl; [lia|].
  rewrite length_app, IH, Hl. lia.
Qed.

Lemma join_Forall {A} (P : A → Prop) (ls : list (list A)) :
  Forall (Forall P) ls → Forall P (mjoin ls).
Proof.
  induction 1 as [|l ls Hl _ IH]; simpl; [constructor|].
  by apply Forall_app.
Qed.

Lemma digest_length msg : length (SHA256.digest msg) = 32%nat.
Proof.
  unfold SHA256.digest. erewrite (join_length 4).
  - rewrite length_fmap, compress_all_length; done.
  - apply Forall_fmap, Forall_true. intros w. apply be_bytes_length.
Qed.

Lemma digest_range msg : Forall (λ b, 0 ≤ b < 256) (SHA256.digest msg).
Proof.
  unfold SHA256.digest. apply join_Forall, Forall_fmap, Forall_true.
  intros w. apply be_bytes_range.
Qed.

Lemma hex_digit_hex n : 0 ≤ n < 16 → hex_char (SHA256.hex_digit n) = true.
Proof.
  intros Hn. unfold SHA256.hex_digit, hex_char.
  destruct (n <? 10) eqn:E.
  - apply Z.ltb_lt in E. apply orb_true_iff. left.
    apply andb_true_iff. split; [apply Z.leb_le|apply Z.leb_le]; lia.
  - apply Z.ltb_ge in E. apply orb_true_iff. right.
    apply andb_true_iff. split; [apply Z.leb_le|apply Z.leb_le]; lia.
Qed.

Lemma hexdigest_length msg : length (SHA256.hexdigest msg) = 64%nat.
Proof.
  unfold SHA256.hexdigest. erewrite (join_length 2).
  - by rewrite length_fmap, digest_length.
  - by apply Forall_fmap, Forall_true.
Qed.

Lemma hexdigest_hex msg :
  Forall (λ c, hex_char c = true) (SHA256.hexdigest msg).
Proof.
  unfold SHA256.hexdigest. apply join_Forall, Forall_fmap.
  eapply Forall_impl; [apply digest_range|].
  intros b Hb. simpl in *. repeat constructor.
  - apply hex_digit_hex. rewrite Z.shiftr_div_pow2 by lia.
    change (2 ^ 4) with 16.
    split; [apply Z.div_pos; lia|apply Z.div_lt_upper_bound; lia].
  - apply hex_digit_hex. change 0xf with (Z.ones 4).
    rewrite Z.land_ones by lia. change (2 ^ 4) with 16.
    apply Z.mod_pos_bound. lia.
Qed.

End SHA256Facts.

Module UTF8Facts.

Lemma encode_cp_scalar c : is_Some (UTF8.encode_cp c) ↔ scalar_value c = true.
Proof.
  unfold UTF8.encode_cp, scalar_value.
  rewrite orb_true_iff, !andb_true_iff, !Z.leb_le, !Z.ltb_lt.
  repeat case_match;
    repeat match goal with
           | H : (_ <? _) = true |- _ => apply Z.ltb_lt in H
           | H : (_ <? _) = false |- _ => apply Z.ltb_ge in H
           | H : (_ && _) = true |- _ => apply andb_true_iff in H as [? ?]
           | H : (_ <=? _) = true |- _ => apply Z.leb_le in H
           | H : (_ && _) = false |- _ => apply andb_false_iff in H as [?|?]
           | H : (_ <=? _) = false |- _ => apply Z.leb_gt in H
           end;
    (split; intros Hs;
     [first [by destruct Hs as [? [=]] | lia]
     |first [by eexists | exfalso; lia]]).
Qed.

Lemma encode_scalar s :
  is_Some (UTF8.encode s) ↔ Forall (λ c, scalar_value c = true) s.
Proof.
  induction s as [|c s IH]; simpl.
  - split; [constructor|by eexists].
  - rewrite Forall_cons, <- IH, <- encode_cp_scalar.
    destruct (UTF8.encode_cp c), (UTF8.encode s); split;
      try (by intros [? ?]); try (by intros [[? ?] [? ?]]);
      try (by intros; split; eexists); by eexists.
Qed.

End UTF8Facts.

(** X5. Whenever [get_sha256] returns, the result is 64 characters long and
    every character is one of [0-9a-f]. *)
Theorem get_sha256_format `{Unicode} (sentence hash : pystr) :
  get_sha256 sentence = Return hash →
  length hash = 64%nat ∧ Forall (λ c, hex_char c = true) hash.
Proof.
  unfold get_sha256. destruct (UTF8.encode (lower sentence)); [|done].
  intros [= <-]. split.
  - apply SHA256Facts.hexdigest_length.
  - apply SHA256Facts.hexdigest_hex.
Qed.

Lemma get_sha256_format_witness :
  ∃ hash,
    get_sha256 (py "Hello") = Return hash
    ∧ length hash = 64%nat ∧ Forall (λ c, hex_char c = true) hash.
Proof.
  destruct (get_sha256 (py "Hello")) as [hash|e] eqn:Hhash.
  - exists hash. split; [reflexivity|].
    exact (get_sha256_format (py "Hello") hash Hhash).
  - exfalso. revert Hhash. vm_compute. discriminate.
Defined.

(** X6. [get_sha256] returns exactly when every character of the lowercased
    sentence is a Unicode scalar value; otherwise, for instance when one is a
    lone surrogate, it raises [UnicodeEncodeError], and so does
    [create_properties]. *)
Theorem get_sha256_raises_iff `{Unicode} (sentence : pystr) :
  (is_Some (returned (get_sha256 sentence))
   ↔ Forall (λ c, scalar_value c = true) (lower sentence))
  ∧ (¬ Forall (λ c, scalar_value c = true) (lower sentence) →
     get_sha256 sentence = Raise UnicodeEncodeError
     ∧ create_properties sentence = Raise UnicodeEncodeError).
Proof.
  pose proof (UTF8Facts.encode_scalar (lower sentence)) as Henc.
  unfold create_properties, get_sha256.
  destruct (UTF8.encode (lower sentence)) as [bytes|]; simpl.
  - split; [split; [by intros _; apply Henc|by eexists]|].
    intros Hns. destruct Hns. by apply Henc.
  - split; [|done]. split; [by intros [? ?]|].
    intros Hs. by apply Henc in Hs as [? ?].
Qed.

Lemma get_sha256_raises_iff_witness :
  ¬ Forall (λ c, scalar_value c = true) (lower [0x61; 0xd800])
  ∧ get_sha256 [0x61; 0xd800] = Raise UnicodeEncodeError
  ∧ create_properties [0x61; 0xd800] = Raise UnicodeEncodeError.
Proof.
  assert (¬ Forall (λ c, scalar_value c = true) (lower [0x61; 0xd800]))
    as Hns.
  { intros Hs. apply Forall_cons in Hs as [_ Hs].
    apply Forall_cons in Hs as [Hs _]. discriminate Hs. }
  split; [exact Hns|].
  destruct (get_sha256_raises_iff [0x61; 0xd800]) as [_ Hraise].
  exact (Hraise Hns).
Defined.

(** ** Folding before the analysis *)

Section Folding.
Context `{Unicode}.

Lemma get_is_palindrome_folded s :
  get_is_palindrome (lower s) = get_is_palindrome s.
Proof. unfold get_is_palindrome. by rewrite lower_idemp. Qed.

Lemma get_unique_characters_folded s :
  get_unique_characters (lower s) = get_unique_characters s.
Proof. unfold get_unique_characters. by rewrite lower_idemp. Qed.

Lemma get_word_count_folded s : get_word_count (lower s) = get_word_count s.
Proof. unfold get_word_count. by rewrite lower_idemp. Qed.

Lemma get_character_frequency_map_folded s :
  get_character_frequency_map (lower s) = get_character_frequency_map s.
Proof. unfold get_character_frequency_map. by rewrite lower_idemp. Qed.

End Folding.

(** X7. Analysing the lowercased sentence, as [create_string] does, gives
    the properties of the sentence itself except for [length], which is
    that of the lowercased sentence; one analysis raises when the other
    does. *)
Theorem create_properties_folded `{Unicode} (sentence : pystr) :
  match create_properties sentence, create_properties (lower sentence) with
  | Return p, Return p' =>
      PropertiesModel.length p = len sentence
      ∧ p' = {| PropertiesModel.length := len (lower sentence);
                PropertiesModel.is_palindrome :=
                  PropertiesModel.is_palindrome p;
                PropertiesModel.unique_characters :=
                  PropertiesModel.unique_characters p;
                PropertiesModel.word_count := PropertiesModel.word_count p;
                PropertiesModel.sha256_hash := PropertiesModel.sha256_hash p;
                PropertiesModel.character_frequency_map :=
                  PropertiesModel.character_frequency_map p |}
  | Raise e, Raise e' => e = e'
  | _, _ => False
  end.
Proof.
  unfold create_properties. rewrite get_sha256_folded.
  rewrite get_is_palindrome_folded, get_unique_characters_folded,
    get_word_count_folded, get_character_frequency_map_folded.
  by destruct (get_sha256 sentence).
Qed.

(** X8. A sentence whose lowercased form has at most one character is a
    palindrome. *)
Theorem short_sentence_is_palindrome `{Unicode} (sentence : pystr) :
  len (lower sentence) ≤ 1 → get_is_palindrome sentence = true.
Proof.
  intros Hlen. unfold get_is_palindrome. apply bool_decide_eq_true.
  destruct (lower sentence) as [|c [|c' s]]; try done.
  unfold len in Hlen. simpl in Hlen. lia.
Qed.

Lemma short_sentence_is_palindrome_witness :
  len (lower [0x41]) ≤ 1 ∧ get_is_palindrome [0x41] = true.
Proof.
  assert (len (lower [0x41]) ≤ 1) as Hlen by (vm_compute; discriminate).
  split; [exact Hlen|]. exact (short_sentence_is_palindrome [0x41] Hlen).
Defined.

(** ** Stripping *)

Lemma lstrip_nonspace c s : isspace c = false → lstrip (c :: s) = c :: s.
Proof. intros Hc. simpl. by rewrite Hc. Qed.

Lemma lstrip_head s :
  lstrip s = [] ∨ ∃ c s', lstrip s = c :: s' ∧ isspace c = false.
Proof.
  induction s as [|c s IH]; simpl; [by left|].
  destruct (isspace c) eqn:Hc; [done|]. right. by exists c, s.
Qed.

Lemma lstrip_idemp s : lstrip (lstrip s) = lstrip s.
Proof.
  destruct (lstrip_head s) as [->|(c & s' & -> & Hc)]; [done|].
  by apply lstrip_nonspace.
Qed.

Lemma lstrip_snoc s c :
  isspace c = false → lstrip (s ++ [c]) = lstrip s ++ [c].
Proof.
  intros Hc. induction s as [|x s IH]; simpl; [by rewrite Hc|].
  by destruct (isspace x).
Qed.

Lemma rstrip_nonspace c s :
  isspace c = false → rstrip (c :: s) = c :: rstrip s.
Proof.
  intros Hc. unfold rstrip.
  rewrite reverse_cons, lstrip_snoc by done.
  by rewrite reverse_app.
Qed.

Lemma rstrip_idemp s : rstrip (rstrip s) = rstrip s.
Proof. unfold rstrip. by rewrite reverse_involutive, lstrip_idemp. Qed.

Lemma strip_idemp s : strip (strip s) = strip s.
Proof.
  unfold strip.
  destruct (lstrip_head s) as [->|(c & s' & -> & Hc)]; [done|].
  rewrite rstrip_nonspace by done.
  rewrite lstrip_nonspace by done.
  by rewrite <- (rstrip_nonspace c s'), rstrip_idemp.
Qed.

Lemma strip_whitespace s : Forall (λ c, isspace c = true) s → strip s = [].
Proof.
  intros Hs. unfold strip.
  assert (lstrip s = []) as ->; [|done].
  induction Hs as [|c s Hc _ IH]; simpl; [done|]. by rewrite Hc.
Qed.

(** ** The stored rows *)


Lemma rows_where_nil_iff conds t :
  rows_where conds t = [] ↔ ∀ r, r ∈ t → forallb (holds r) conds = false.
Proof.
  split.
  - intros Hnil r Hin. apply not_true_is_false. intros Hr.
    by apply (rows_where_elem conds t r).
  - intros Hnone. induction t as [|r t IH]; [done|].
    unfold rows_where in *. cbn [List.filter].
    rewrite (Hnone r) by left. apply IH. intros r' Hr'. apply Hnone.
    by right.
Qed.

Lemma rows_where_id_nil h t :
  rows_where [IdEq h] t = [] ↔ h ∉ (Analyser.id <$> t).
Proof.
  rewrite rows_where_nil_iff, list_elem_of_fmap. split.
  - intros Hnone (r & -> & Hin). apply Hnone in Hin. simpl in Hin.
    by rewrite bool_decide_eq_true_2 in Hin.
  - intros Hnot r Hin. simpl. rewrite andb_true_r.
    apply bool_decide_eq_false. intros <-. apply Hnot. by exists r.
Qed.

Lemma add_commit_fresh row s :
  (∀ r, r ∈ table s →
        Analyser.id r ≠ Analyser.id row
        ∧ Analyser.value r ≠ Analyser.value row) →
  add_commit row s
  = (Return (),
     {| table := table s ++ [row];
        executed := executed s ++ [Insert row] |}).
Proof.
  intros Hfresh. unfold add_commit.
  assert (existsb (λ r, bool_decide (Analyser.id r = Analyser.id row)
                        || bool_decide (Analyser.value r = Analyser.value row))
            (table s) = false) as ->; [|done].
  apply not_true_is_false. intros Hex.
  apply existsb_exists in Hex as (r & Hin & Hr).
  apply list_elem_of_In, Hfresh in Hin as [Hid Hval].
  apply orb_true_iff in Hr as [Hr|Hr]; by apply bool_decide_eq_true in Hr.
Qed.

Section Store.
Context `{Unicode}.

Lemma new_row_derived prop v now :
  create_properties (lower (strip v)) = Return prop →
  derived_row (new_row prop (strip v) now).
Proof.
  intros Hprop. split; [apply strip_idemp|]. split; [done|].
  by rewrite properties_of_new_row.
Qed.

(** Two derived rows with the same value have the same id. *)
Lemma derived_row_id r prop :
  derived_row r →
  create_properties (lower (Analyser.value r)) = Return prop →
  Analyser.id r = PropertiesModel.sha256_hash prop.
Proof.
  intros (_ & Hid & Hprop) Hprop'. rewrite Hprop in Hprop'.
  injection Hprop' as <-. by rewrite Hid.
Qed.

Lemma serve_table_fresh r s :
  table (serve r s) = table s
  ∨ ∃ v prop now,
      create_properties (lower (strip v)) = Return prop
      ∧ (PropertiesModel.sha256_hash prop ∉ (Analyser.id <$> table s))
      ∧ table (serve r s) = table s ++ [new_row prop (strip v) now].
Proof.
  destruct r as [req now|v|q|query reply]; simpl.
  - pose proof (create_string_run req now s) as Hrun.
    destruct (create_string req now s) as [[resp|e] s']; simpl; [|by left].
    destruct Hrun as (v & prop & _ & Hprop & Hfresh & -> & _).
    right. exists v, prop, now. by rewrite <- rows_where_id_nil.
  - left. apply get_string_table.
  - left. apply get_all_strings_table.
  - left. by rewrite filter_by_natural_language_session.
Qed.

Lemma reachable_store s :
  reachable s →
  Forall derived_row (table s) ∧ NoDup (Analyser.id <$> table s).
Proof.
  unfold reachable.
  assert (∀ s0 s1, rtc step s0 s1 →
            Forall derived_row (table s0) ∧ NoDup (Analyser.id <$> table s0) →
            Forall derived_row (table s1) ∧ NoDup (Analyser.id <$> table s1))
    as Hsteps.
  { induction 1 as [|s1 s2 s3 [r ->] _ IH]; [done|].
    intros [Hder Hnd]. apply IH.
    destruct (serve_table_fresh r s1)
      as [->|(v & prop & now & Hprop & Hfresh & ->)]; [done|].
    split.
    - apply Forall_app. split; [done|].
      apply Forall_singleton. by apply new_row_derived.
    - rewrite fmap_app. apply NoDup_app. split; [done|].
      split; [|apply NoDup_singleton].
      intros h Hh ->%list_elem_of_singleton. done. }
  intros Hreach. apply (Hsteps _ _ Hreach).
  split; [constructor|]. simpl. constructor.
Qed.


(** [create_string] on a table of derived rows, for a non-empty string that
    can be analysed: refused when the hash is stored, stored otherwise.  The
    look-up by value and the constraints of the table never decide. *)
Lemma create_string_derived v prop now s :
  Forall derived_row (table s) →
  v ≠ [] →
  create_properties (lower (strip v)) = Return prop →
  (create_string {| GetRequest.value := JStr v |} now s).1
  = if bool_decide (PropertiesModel.sha256_hash prop
                    ∈ (Analyser.id <$> table s))
    then Raise (HTTPException 409 DUPLICATE_VALUE)
    else Return {| StringResponse.id := PropertiesModel.sha256_hash prop;
                   StringResponse.value := strip v;
                   StringResponse.properties := prop;
                   StringResponse.created_at := now |}.
Proof.
  intros Hder Hv Hprop.
  assert (∀ r w, r ∈ table s → Analyser.value r = w → strip w = strip v →
            Analyser.id r = PropertiesModel.sha256_hash prop) as Hsame.
  { intros r w Hin Hval Hw.
    pose proof (proj1 (Forall_forall _ _) Hder r Hin) as Hr.
    apply derived_row_id; [done|].
    destruct Hr as (Hstrip & _). rewrite <- Hstrip, Hval, Hw. done. }
  unfold create_string. cbn [GetRequest.value truthy].
  assert (str_truthy v = true) as -> by (by destruct v).
  cbn [negb]. unfold mbind, io_bind, lift.
  rewrite Hprop, session_get_run.
  case_bool_decide as Hin.
  { destruct (rows_where _ (table s)) eqn:Hrows; [|done].
    by apply rows_where_id_nil in Hrows. }
  pose proof Hin as Hnil. rewrite <- rows_where_id_nil in Hnil.
  rewrite Hnil. cbn [head]. rewrite select_where_run. cbn [table].
  assert (rows_where [ValueEq v] (table s) = []) as ->.
  { apply rows_where_nil_iff. intros r Hr. simpl. rewrite andb_true_r.
    apply bool_decide_eq_false. intros Hval. apply Hin.
    apply list_elem_of_fmap. exists r. split; [|done].
    symmetry. by apply (Hsame r v). }
  cbn [head]. rewrite add_commit_fresh; cbn [table].
  - unfold refresh, mbind, io_bind. rewrite session_get_run. cbn [table].
    rewrite rows_where_app.
    change (Analyser.id (new_row prop (strip v) now))
      with (PropertiesModel.sha256_hash prop) at 1.
    rewrite Hnil.
    change (PropertiesModel.sha256_hash prop)
      with (Analyser.id (new_row prop (strip v) now)) at 1.
    by rewrite rows_where_id_self.
  - intros r Hr. split.
    + intros Hid. apply Hin. apply list_elem_of_fmap. by exists r.
    + intros Hval. apply Hin. apply list_elem_of_fmap. exists r.
      split; [|done]. symmetry.
      apply (Hsame r (strip v)); [done|done|apply strip_idemp].
Qed.

Lemma get_string_run v h s :
  get_sha256 (lower (strip v)) = Return h →
  (get_string v s).1
  = match head (rows_where [IdEq h] (table s)) with
    | Some r => Return (string_response r)
    | None => Raise (HTTPException 404 DOES_NOT_EXIST)
    end.
Proof.
  intros Hh. unfold get_string, mbind, io_bind, lift.
  rewrite Hh, select_where_run. by destruct (head _).
Qed.

End Store.

Abbreviation madam_session :=
  (serve (PostString {| GetRequest.value := JStr (py " Madam ") |} 7)
     empty_session).

Lemma madam_session_reachable : reachable madam_session.
Proof. apply rtc_once. by eexists. Qed.

(** X9. In every state the service can reach, every stored value is
    stripped and the columns of its row are the analysis of its lowercased
    form: the stored length, palindrome flag, counts, hash and frequency map
    always agree with the stored value. *)
Theorem stored_rows_are_derived `{Unicode} (s : session) :
  reachable s → Forall derived_row (table s).
Proof. intros Hs. by apply reachable_store in Hs as [? _]. Qed.

Lemma stored_rows_are_derived_witness :
  reachable madam_session
  ∧ length (table madam_session) = 1%nat
  ∧ Forall derived_row (table madam_session).
Proof.
  split; [exact madam_session_reachable|].
  split; [vm_compute; reflexivity|].
  exact (stored_rows_are_derived madam_session madam_session_reachable).
Defined.



(** ** POST /strings/ and GET /strings/{string_value} together *)



(** X12. Once a string was created, posting a string with the same
    stripped, lowercased form (another case, other surrounding whitespace) is
    refused with 409, now and after any further requests, after one look-up
    and with the table unchanged. *)
Theorem create_string_same_fold_conflicts `{Unicode}
    (v v' : pystr) (now now' : Z) (s s' s'' : session)
    (resp : StringResponse.t) :
  create_string {| GetRequest.value := JStr v |} now s = (Return resp, s') →
  rtc step s' s'' →
  v' ≠ [] →
  lower (strip v') = lower (strip v) →
  create_string {| GetRequest.value := JStr v' |} now' s''
  = (Raise (HTTPException 409 DUPLICATE_VALUE),
     {| table := table s'';
        executed :=
          executed s'' ++ [Select [IdEq (StringResponse.id resp)]] |}).
Proof.
  intros Hcreate Hsteps Hv' Hfold.
  pose proof (create_string_run {| GetRequest.value := JStr v |} now s)
    as Hrun.
  rewrite Hcreate in Hrun.
  destruct Hrun as (w & prop & [= <-] & Hprop & Hfresh & Htab & ->).
  apply steps_prefix in Hsteps. rewrite Htab in Hsteps.
  unfold create_string. cbn [GetRequest.value truthy StringResponse.id].
  assert (str_truthy v' = true) as -> by (by destruct v').
  cbn [negb]. unfold mbind, io_bind, lift.
  rewrite Hfold, Hprop, session_get_run.
  by rewrite (created_row_found prop (strip v) now s s'').
Qed.

Lemma create_string_same_fold_conflicts_witness :
  ∃ resp s',
    create_string {| GetRequest.value := JStr (py " Madam ") |} 7
      empty_session = (Return resp, s')
    ∧ lower (strip (py "mADAM  ")) = lower (strip (py " Madam "))
    ∧ (create_string {| GetRequest.value := JStr (py "mADAM  ") |} 8 s').1
      = Raise (HTTPException 409 DUPLICATE_VALUE).
Proof.
  destruct (create_string {| GetRequest.value := JStr (py " Madam ") |} 7
              empty_session) as [[resp|e] s'] eqn:Hcreated.
  - exists resp, s'. split; [reflexivity|]. split; [reflexivity|].
    by rewrite (create_string_same_fold_conflicts (py " Madam ")
                  (py "mADAM  ") 7 8 empty_session s' s' resp Hcreated
                  (rtc_refl _ _) ltac:(done) eq_refl).
  - exfalso. revert Hcreated. vm_compute. discriminate.
Defined.

(** X13. Once a string was created, [get_string] with any string of the
    same stripped, lowercased form returns the response of the creation,
    with the value as it was first stored. *)
Theorem get_string_same_fold `{Unicode}
    (v v' : pystr) (now : Z) (s s' s'' : session) (resp : StringResponse.t) :
  create_string {| GetRequest.value := JStr v |} now s = (Return resp, s') →
  rtc step s' s'' →
  lower (strip v') = lower (strip v) →
  (get_string v' s'').1 = Return resp
  ∧ StringResponse.value resp = strip v.
Proof.
  intros Hcreate Hsteps Hfold.
  pose proof (create_string_run {| GetRequest.value := JStr v |} now s)
    as Hrun.
  rewrite Hcreate in Hrun.
  destruct Hrun as (w & prop & [= <-] & Hprop & Hfresh & Htab & ->).
  apply steps_prefix in Hsteps. rewrite Htab in Hsteps.
  apply create_properties_inv in Hprop as Hinv. destruct Hinv as (Hhash & _).
  split; [|done].
  rewrite (get_string_run v' (PropertiesModel.sha256_hash prop))
    by (by rewrite Hfold).
  rewrite (created_row_found prop (strip v) now s s'') by done.
  unfold string_response. by rewrite properties_of_new_row.
Qed.

Lemma get_string_same_fold_witness :
  ∃ resp s',
    create_string {| GetRequest.value := JStr (py " Madam ") |} 7
      empty_session = (Return resp, s')
    ∧ lower (strip (py "MADAM")) = lower (strip (py " Madam "))
    ∧ (get_string (py "MADAM") s').1 = Return resp
    ∧ StringResponse.value resp = py "Madam".
Proof.
  destruct (create_string {| GetRequest.value := JStr (py " Madam ") |} 7
              empty_session) as [[resp|e] s'] eqn:Hcreated.
  - exists resp, s'. split; [reflexivity|]. split; [reflexivity|].
    exact (get_string_same_fold (py " Madam ") (py "MADAM") 7
             empty_session s' s' resp Hcreated (rtc_refl _ _) eq_refl).
  - exfalso. revert Hcreated. vm_compute. discriminate.
Defined.



Lemma create_properties_empty `{Unicode} :
  lower [] = [] →
  create_properties (lower [])
  = Return {| PropertiesModel.length := 0;
              PropertiesModel.is_palindrome := true;
              PropertiesModel.unique_characters := 0;
              PropertiesModel.word_count := 0;
              PropertiesModel.sha256_hash := SHA256.hexdigest [];
              PropertiesModel.character_frequency_map := ∅ |}.
Proof.
  intros Hlower.
  unfold create_properties, get_sha256, get_is_palindrome,
    get_unique_characters, get_word_count, get_character_frequency_map.
  rewrite !Hlower. cbn [UTF8.encode findall_words foldl list_to_set].
  rewrite size_empty, bool_decide_eq_true_2 by done. done.
Qed.

(** X15. A value made of whitespace only is not refused as empty.  When the
    lowercase form of the empty string is the empty string, it is stored as
    the empty string, with length 0, no word, no character, an empty
    frequency map and [is_palindrome] true, unless the empty string is
    stored already. *)
Theorem create_string_whitespace `{Unicode}
    (v : pystr) (now : Z) (s : session) :
  reachable s →
  v ≠ [] →
  Forall (λ c, isspace c = true) v →
  lower [] = [] →
  (create_string {| GetRequest.value := JStr v |} now s).1
  = if bool_decide (SHA256.hexdigest [] ∈ (Analyser.id <$> table s))
    then Raise (HTTPException 409 DUPLICATE_VALUE)
    else Return
      {| StringResponse.id := SHA256.hexdigest [];
         StringResponse.value := [];
         StringResponse.properties :=
           {| PropertiesModel.length := 0;
              PropertiesModel.is_palindrome := true;
              PropertiesModel.unique_characters := 0;
              PropertiesModel.word_count := 0;
              PropertiesModel.sha256_hash := SHA256.hexdigest [];
              PropertiesModel.character_frequency_map := ∅ |};
         StringResponse.created_at := now |}.
Proof.
  intros Hs Hv Hws Hlower. apply reachable_store in Hs as [Hder _].
  rewrite (create_string_derived v _ now s Hder Hv
             (eq_ind_r (λ w, create_properties (lower w) = _)
                (create_properties_empty Hlower) (strip_whitespace v Hws))).
  by rewrite (strip_whitespace v Hws).
Qed.

Lemma create_string_whitespace_witness :
  reachable madam_session
  ∧ Forall (λ c, isspace c = true) (py "  ")
  ∧ lower [] = []
  ∧ StringResponse.value
      <$> returned (create_string {| GetRequest.value := JStr (py "  ") |} 9
                      madam_session).1
    = Some [].
Proof.
  assert (Forall (λ c, isspace c = true) (py "  ")) as Hws
    by (vm_compute; repeat constructor).
  split; [exact madam_session_reachable|].
  split; [exact Hws|]. split; [reflexivity|].
  rewrite (create_string_whitespace (py "  ") 9 madam_session
             madam_session_reachable ltac:(done) Hws eq_refl).
  case_bool_decide as Hin; [|reflexivity].
  exfalso. revert Hin. vm_compute.
  intros [Heq|Hnil]%elem_of_cons; [discriminate Heq|].
  by apply elem_of_nil in Hnil.
Defined.

(** ** GET /strings/: what the filters select *)

Lemma has_key_iff m key :
  has_key m key = true ↔ ∃ k, key = [k] ∧ is_Some (m !! k).
Proof.
  unfold has_key. destruct key as [|k [|k' key]].
  - split; [done|]. by intros (? & [=] & _).
  - rewrite bool_decide_eq_true. split; [by exists k|].
    by intros (? & [= <-] & ?).
  - split; [done|]. by intros (? & [=] & _).
Qed.






(** X17. When both bounds are supplied, neither is 0 and
    [max_length < min_length], the request is refused with 422 and no
    statement is sent to the database. *)
Theorem get_all_strings_refuses_bounds `{Unicode}
    (q : filters) (max_length min_length : Z) (s : session) :
  q_max_length q = Some max_length →
  q_min_length q = Some min_length →
  max_length ≠ 0 →
  min_length ≠ 0 →
  max_length < min_length →
  get_all_strings q s
  = (Raise (HTTPException 422
              (py "Max length must be greater than Min length")), s).
Proof.
  intros Hmax Hmin Hmax0 Hmin0 Hlt. unfold get_all_strings.
  assert (bounds_rejected q = true) as ->; [|done].
  apply bounds_rejected_iff. by exists max_length, min_length.
Qed.

Lemma get_all_strings_refuses_bounds_witness :
  get_all_strings
    {| q_is_palindrome := None; q_min_length := Some 10;
       q_max_length := Some 5; q_word_count := None;
       q_contains_character := None |} madam_session
  = (Raise (HTTPException 422
              (py "Max length must be greater than Min length")),
     madam_session).
Proof.
  exact (get_all_strings_refuses_bounds
           {| q_is_palindrome := None; q_min_length := Some 10;
              q_max_length := Some 5; q_word_count := None;
              q_contains_character := None |}
           5 10 madam_session eq_refl eq_refl
           ltac:(discriminate) ltac:(discriminate) eq_refl).
Defined.

Lemma executed_nothing (l : list statement) :
  ∃ stmts,
    l = l ++ stmts
    ∧ (length stmts ≤ 1)%nat
    ∧ Forall (λ st, ∃ conds, st = Select conds) stmts.
Proof.
  exists []. split; [by rewrite app_nil_r|]. split; [simpl; lia|constructor].
Qed.

(** X18. The three GET handlers only read: whatever the request, the table
    is unchanged, at most one statement is executed, and it is a [SELECT]. *)
Theorem get_requests_only_read `{Unicode} (r : request) (s : session) :
  (∀ req now, r ≠ PostString req now) →
  table (serve r s) = table s
  ∧ ∃ stmts,
      executed (serve r s) = executed s ++ stmts
      ∧ (length stmts ≤ 1)%nat
      ∧ Forall (λ st, ∃ conds, st = Select conds) stmts.
Proof.
  intros Hget. destruct r as [req now|v|q|query reply]; simpl.
  - by destruct (Hget req now).
  - split; [apply get_string_table|].
    unfold get_string, mbind, io_bind, lift.
    destruct (get_sha256 _) as [h|e].
    + rewrite select_where_run. exists [Select [IdEq h]].
      split; [by destruct (head (rows_where [IdEq h] (table s)))|].
      split; [simpl; lia|].
      apply Forall_singleton. by eexists.
    + apply executed_nothing.
  - split; [apply get_all_strings_table|].
    unfold get_all_strings.
    destruct (bounds_rejected q); [apply executed_nothing|].
    destruct (conditions q) as [|c cs] eqn:Hc; [apply executed_nothing|].
    unfold mbind, io_bind. rewrite select_where_run.
    exists [Select (c :: cs)].
    split; [by destruct (rows_where (c :: cs) (table s))|].
    split; [simpl; lia|].
    apply Forall_singleton. by eexists.
  - rewrite filter_by_natural_language_session.
    split; [done|]. apply executed_nothing.
Qed.

Lemma get_requests_only_read_witness :
  table (serve (GetString (py "madam")) madam_session)
  = table madam_session
  ∧ length (executed (serve (GetString (py "madam")) madam_session))
    = S (length (executed madam_session)).
Proof.
  destruct (get_requests_only_read (GetString (py "madam")) madam_session
              ltac:(discriminate)) as [Htable _].
  split; [exact Htable|]. vm_compute. reflexivity.
Defined.


(** X20. In a state the service can reach, a stored row passes the
    condition built for [contains_character] exactly when the stripped,
    lowercased parameter is one character, not a whitespace character, that
    occurs in the lowercased stored value. *)
Theorem contains_character_matches `{Unicode}
    (s : session) (r : Analyser.t) (key : pystr) :
  reachable s →
  r ∈ table s →
  holds r (HasKey key) = true
  ↔ ∃ k, key = [k] ∧ isspace k = false ∧ k ∈ lower (Analyser.value r).
Proof.
  intros Hs Hr. apply reachable_store in Hs as [Hder _].
  pose proof (proj1 (Forall_forall _ _) Hder r Hr) as (_ & _ & Hprop).
  apply create_properties_inv in Hprop as (_ & _ & _ & Hfreq).
  cbn [holds]. rewrite has_key_iff.
  cbn [properties_of PropertiesModel.character_frequency_map] in Hfreq.
  rewrite Hfreq. setoid_rewrite frequency_map_is_Some.
  setoid_rewrite lower_idemp.
  split; intros (k & -> & ? & ?); by exists k.
Qed.

Lemma contains_character_matches_witness :
  ∃ r,
    reachable madam_session
    ∧ r ∈ table madam_session
    ∧ holds r (HasKey (py "d")) = true
    ∧ 0x64 ∈ lower (Analyser.value r).
Proof.
  assert (∃ r, table madam_session = [r]) as [r Htable].
  { vm_compute. by eexists. }
  exists r.
  assert (r ∈ table madam_session) as Hr by (rewrite Htable; left).
  split; [exact madam_session_reachable|]. split; [exact Hr|].
  assert (holds r (HasKey (py "d")) = true) as Hholds.
  { revert Htable. vm_compute. by intros [= <-]. }
  split; [exact Hholds|].
  destruct (proj1 (contains_character_matches madam_session r (py "d")
                     madam_session_reachable Hr) Hholds)
    as (k & [= <-] & _ & Hk).
  exact Hk.
Defined.

(** ** The log formatter *)

Module LoggerFacts.
Import Logger.
Section Formatter.
Context {V : Type}.
Implicit Types (m : gmap string V) (items : list (string * V)).

Lemma copy_items_reserved items m k :
  k ∈ reserved → foldl copy_item m items !! k = m !! k.
Proof.
  intros Hk. revert m. induction items as [|[k' v'] items IH]; intros m;
    simpl; [done|].
  rewrite IH. unfold copy_item. simpl. case_bool_decide as Hk'; [done|].
  apply lookup_insert_ne. by intros ->.
Qed.

Lemma copy_items_absent items m k :
  k ∉ (fst <$> items) → foldl copy_item m items !! k = m !! k.
Proof.
  revert m. induction items as [|[k' v'] items IH]; intros m Hk; simpl;
    [done|].
  rewrite fmap_cons, not_elem_of_cons in Hk. destruct Hk as [Hne Hk].
  rewrite IH by done. unfold copy_item. simpl. case_bool_decide; [done|].
  by apply lookup_insert_ne.
Qed.

Lemma copy_items_present items m k v :
  NoDup (fst <$> items) → (k, v) ∈ items → k ∉ reserved →
  foldl copy_item m items !! k = Some v.
Proof.
  revert m. induction items as [|[k' v'] items IH]; intros m Hnd Hin Hk;
    simpl.
  - by apply elem_of_nil in Hin.
  - rewrite fmap_cons in Hnd. apply NoDup_cons in Hnd as [Hfresh Hnd].
    apply elem_of_cons in Hin as [[= <- <-]|Hin].
    + rewrite copy_items_absent by done. unfold copy_item. simpl.
      rewrite bool_decide_eq_false_2 by done. apply lookup_insert_eq.
    + by apply IH.
Qed.

Lemma copy_items_is_Some items m k :
  is_Some (foldl copy_item m items !! k)
  ↔ is_Some (m !! k) ∨ (k ∈ (fst <$> items) ∧ k ∉ reserved).
Proof.
  revert m. induction items as [|[k' v'] items IH]; intros m; simpl.
  - split; [auto|]. intros [?|[Hin _]]; [done|]. by apply elem_of_nil in Hin.
  - rewrite IH, elem_of_cons. unfold copy_item. simpl.
    case_bool_decide as Hk'.
    + split; [intros [?|[? ?]]; auto|].
      intros [?|[[->|?] ?]]; auto. done.
    + rewrite lookup_insert_is_Some. split.
      * intros [[->|[_ ?]]|[? ?]]; auto.
      * intros [?|[[->|?] ?]]; auto.
        destruct (decide (k' = k)) as [->|?]; auto.
Qed.

Context (formatTime getMessage : LogRecord V → V) (formatException : V → V).

Lemma format_lookup_reserved record k :
  k ∈ reserved →
  format formatTime getMessage formatException record !! k
  = (<["lineno"%string := lineno record]>
       (<["pathname"%string := pathname record]>
          {["message"%string := getMessage record]}) : gmap string V) !! k.
Proof.
  intros Hk. unfold format. rewrite copy_items_reserved by done.
  assert (k ≠ "exception"%string ∧ k ≠ "logger"%string
          ∧ k ≠ "level"%string ∧ k ≠ "timestamp"%string)
    as (He & Hlo & Hle & Hts).
  { repeat split; intros ->; revert Hk; unfold reserved;
      rewrite !elem_of_cons, elem_of_nil; intros Hk;
      repeat destruct Hk as [Hk|Hk]; done. }
  destruct (exc_info record); rewrite ?(lookup_insert_ne _ "exception"%string)
    by done.
  all: destruct (decide (k = "lineno"%string)) as [->|?];
    [by rewrite !lookup_insert_eq|rewrite !(lookup_insert_ne _ "lineno"%string) by done].
  all: destruct (decide (k = "pathname"%string)) as [->|?];
    [by rewrite !lookup_insert_eq|rewrite !(lookup_insert_ne _ "pathname"%string) by done].
  all: destruct (decide (k = "message"%string)) as [->|?];
    [by rewrite lookup_insert_eq, lookup_singleton_eq|].
  all: rewrite (lookup_insert_ne _ "message"%string),
         (lookup_insert_ne _ "logger"%string),
         (lookup_insert_ne _ "level"%string),
         (lookup_insert_ne _ "timestamp"%string), lookup_empty,
         lookup_singleton_ne by done; done.
Qed.

End Formatter.
End LoggerFacts.

(** X21. In the formatted record the entries [message], [pathname] and
    [lineno] are always those of the log record, and no other excluded
    attribute name ([msg], [args], [levelname], ...) is ever a key: an
    attribute of the record cannot replace or add them. *)
Theorem format_reserved_keys {V : Type}
    (formatTime getMessage : Logger.LogRecord V → V)
    (formatException : V → V) (record : Logger.LogRecord V) :
  Logger.format formatTime getMessage formatException record
    !! "message"%string = Some (getMessage record)
  ∧ Logger.format formatTime getMessage formatException record
      !! "pathname"%string = Some (Logger.pathname record)
  ∧ Logger.format formatTime getMessage formatException record
      !! "lineno"%string = Some (Logger.lineno record)
  ∧ ∀ k, k ∈ Logger.reserved →
         k ≠ "message"%string → k ≠ "pathname"%string →
         k ≠ "lineno"%string →
         Logger.format formatTime getMessage formatException record !! k
         = None.
Proof.
  assert (∀ k, k ∈ ["message"; "pathname"; "lineno"]%string →
               k ∈ Logger.reserved) as Hres.
  { intros k Hk. apply list_elem_of_In. apply list_elem_of_In in Hk.
    simpl in *. tauto. }
  repeat split.
  - rewrite LoggerFacts.format_lookup_reserved by (apply Hres; set_solver).
    done.
  - rewrite LoggerFacts.format_lookup_reserved by (apply Hres; set_solver).
    done.
  - rewrite LoggerFacts.format_lookup_reserved by (apply Hres; set_solver).
    done.
  - intros k Hk Hm Hp Hl.
    rewrite LoggerFacts.format_lookup_reserved by done.
    rewrite !lookup_insert_ne by done. by apply lookup_singleton_ne.
Qed.

(** X22. An attribute of the record whose name is not excluded is copied
    into the formatted record under its name, replacing whatever the
    formatter put there: an attribute named [timestamp], [level], [logger]
    or [exception] overrides the entry of that name. *)
Theorem format_copies_attribute {V : Type}
    (formatTime getMessage : Logger.LogRecord V → V)
    (formatException : V → V) (record : Logger.LogRecord V)
    (k : string) (v : V) :
  NoDup (fst <$> Logger.dict_items record) →
  (k, v) ∈ Logger.dict_items record →
  k ∉ Logger.reserved →
  Logger.format formatTime getMessage formatException record !! k = Some v.
Proof.
  intros Hnd Hin Hk. unfold Logger.format.
  by apply LoggerFacts.copy_items_present.
Qed.

Lemma format_copies_attribute_witness :
  Logger.format (V := Z) (λ _, 1) (λ _, 2) (λ e, e)
    {| Logger.levelname := 20; Logger.name := 3; Logger.pathname := 4;
       Logger.lineno := 42; Logger.exc_info := None;
       Logger.dict_items :=
         [("levelname"%string, 20); ("timestamp"%string, 99)] |}
    !! "timestamp"%string = Some 99.
Proof.
  apply format_copies_attribute.
  - cbn. apply NoDup_cons.
    split; [by intros [=]%list_elem_of_singleton|apply NoDup_singleton].
  - right. left.
  - intros Hin. apply list_elem_of_In in Hin. simpl in Hin.
    repeat destruct Hin as [Hin|Hin]; done.
Defined.

(** X23. The keys of the formatted record are the six standard ones,
    [exception] when the record carries exception information, and the names
    of the attributes that are not excluded; nothing else. *)
Theorem format_keys {V : Type}
    (formatTime getMessage : Logger.LogRecord V → V)
    (formatException : V → V) (record : Logger.LogRecord V) (k : string) :
  is_Some (Logger.format formatTime getMessage formatException record !! k)
  ↔ k ∈ ["timestamp"; "level"; "logger"; "message"; "pathname";
         "lineno"]%string
    ∨ (k = "exception"%string ∧ is_Some (Logger.exc_info record))
    ∨ (k ∈ (fst <$> Logger.dict_items record) ∧ k ∉ Logger.reserved).
Proof.
  unfold Logger.format. rewrite LoggerFacts.copy_items_is_Some.
  rewrite !elem_of_cons, elem_of_nil.
  destruct (Logger.exc_info record) as [e|];
    rewrite !lookup_insert_is_Some, lookup_empty.
  - split.
    + intros [[<-|[_ Hk]]|?]; [right; left; by split|
        |by right; right].
      left. destruct Hk as [<-|[_ [<-|[_ [<-|[_ [<-|[_ [<-|[_ [<-|[_ Hk]]]]]]]]]]]];
        auto 10. by destruct Hk.
    + intros [Hk|[[-> _]|?]]; [|by left; left|by right].
      left. destruct (decide ("exception"%string = k)); [by left|right].
      split; [done|].
      destruct Hk as [->|[->|[->|[->|[->|[->|[]]]]]]];
        repeat (first [by left | right; split; [done|]]).
  - split.
    + intros [Hk|?]; [|by right; right].
      left. destruct Hk as [<-|[_ [<-|[_ [<-|[_ [<-|[_ [<-|[_ [<-|[_ Hk]]]]]]]]]]]];
        auto 10. by destruct Hk.
    + intros [Hk|[[_ [? [=]]]|?]]; [|by right].
      left.
      destruct Hk as [->|[->|[->|[->|[->|[->|[]]]]]]];
        repeat (first [by left | right; split; [done|]]).
Qed.

(** ** What the columns of a stored row say of each other *)

Lemma size_list_to_set_le (l : pystr) :
  (size (list_to_set l : gset Z) ≤ length l)%nat.
Proof.
  induction l as [|c l IH]; [by rewrite list_to_set_nil, size_empty|].
  rewrite list_to_set_cons, size_union_alt, size_singleton. simpl.
  assert (size (list_to_set l ∖ {[c]} : gset Z) ≤ size (list_to_set l : gset Z))%nat
    by (by apply subseteq_size, subseteq_difference_l).
  lia.
Qed.

Lemma create_properties_counts `{Unicode} sentence p :
  create_properties sentence = Return p →
  PropertiesModel.unique_characters p = get_unique_characters sentence
  ∧ PropertiesModel.word_count p = get_word_count sentence.
Proof.
  unfold create_properties. destruct (get_sha256 sentence); [|done].
  by intros [= <-].
Qed.

(** X24. In every state the service can reach, the columns of a stored row
    are consistent: [length] is the length of the lowercased value,
    [word_count] and [unique_characters] are between 0 and [length], the
    frequency map has at most [unique_characters] keys, and [is_palindrome]
    says whether the lowercased value reads the same backwards. *)
Theorem stored_columns_consistent `{Unicode} (s : session) (r : Analyser.t) :
  reachable s →
  r ∈ table s →
  Analyser.length r = len (lower (Analyser.value r))
  ∧ 0 ≤ Analyser.word_count r ≤ Analyser.length r
  ∧ 0 ≤ Analyser.unique_characters r ≤ Analyser.length r
  ∧ Z.of_nat (size (Analyser.character_frequency_map r))
    ≤ Analyser.unique_characters r
  ∧ (Analyser.is_palindrome r = true
     ↔ lower (Analyser.value r) = reverse (lower (Analyser.value r))).
Proof.
  intros Hs Hr. apply reachable_store in Hs as [Hder _].
  pose proof (proj1 (Forall_forall _ _) Hder r Hr) as (_ & _ & Hprop).
  pose proof (create_properties_inv _ _ Hprop) as (_ & Hlen & Hpal & Hfreq).
  pose proof (create_properties_counts _ _ Hprop) as (Huniq & Hwc).
  cbn [properties_of PropertiesModel.length PropertiesModel.is_palindrome
       PropertiesModel.character_frequency_map
       PropertiesModel.unique_characters PropertiesModel.word_count] in *.
  rewrite get_word_count_folded in Hwc.
  rewrite get_unique_characters_folded in Huniq.
  rewrite get_character_frequency_map_folded in Hfreq.
  rewrite get_is_palindrome_folded in Hpal.
  rewrite Hlen, Hwc, Huniq, Hfreq, Hpal.
  split; [done|]. split.
  { split; [unfold get_word_count, len; lia|].
    transitivity (len (List.filter isword (lower (Analyser.value r))));
      [apply word_count_le_word_chars|].
    unfold len. apply inj_le, List.filter_length_le. }
  split.
  { unfold get_unique_characters, len.
    split; [lia|apply inj_le, size_list_to_set_le]. }
  split.
  { unfold get_unique_characters. rewrite <- size_dom.
    apply inj_le, subseteq_size. intros k Hk.
    apply elem_of_dom, frequency_map_keys in Hk as [Hk _].
    by apply elem_of_list_to_set. }
  unfold get_is_palindrome. apply bool_decide_eq_true.
Qed.

Lemma stored_columns_consistent_witness :
  ∃ r,
    reachable madam_session
    ∧ r ∈ table madam_session
    ∧ Analyser.length r = 5
    ∧ 0 ≤ Analyser.word_count r ≤ Analyser.length r
    ∧ 0 ≤ Analyser.unique_characters r ≤ Analyser.length r.
Proof.
  assert (∃ r, table madam_session = [r] ∧ Analyser.length r = 5)
    as (r & Htable & Hlen).
  { vm_compute. by eexists. }
  exists r.
  assert (r ∈ table madam_session) as Hr by (rewrite Htable; left).
  split; [exact madam_session_reachable|]. split; [exact Hr|].
  split; [exact Hlen|].
  destruct (stored_columns_consistent madam_session r
              madam_session_reachable Hr) as (_ & Hwc & Huniq & _).
  by split.
Defined.
